(** * Landslide-hazard zonation for the Pijao road corridor

    A shallow embedding of the classification, interpolation, zonation and
    statistics code of [config.py], [mapa_amenaza_pijao.py] and
    [pages/1_Estadisticas.py], and of the table and raster loaders of
    [utils/data_loader.py] and [utils/geotiff_overlay.py].

    Conventions of the embedding.
    - A Python/NumPy float is a value of [fval]: NaN, the two infinities, or
      a finite number carried as an exact rational.  Decimal literals of the
      source ([1.2], [1e-10]) are read as the rationals they denote, and
      arithmetic on finite numbers is exact: rounding is not modelled.
    - A raised Python exception is the [Raise] outcome of the [res] monad.
    - NumPy arrays are lists; a 2-D array is flattened in row-major order
      ([ravel]) or kept as a list of rows where an axis is reduced. *)

From Stdlib Require Import String Ascii.
From Stdlib Require Import QArith Qminmax Qpower Qabs Qround ZArith List Bool.
From Stdlib Require Import Lia Lqa.
Import ListNotations.

(** ** Exceptions *)

Inductive excepcion : Set :=
| IndexError
| ValueError
| AxisError
| KeyError.

Inductive res (A : Type) : Type :=
| OK (a : A)
| Raise (e : excepcion).

Arguments OK {A} a.
Arguments Raise {A} e.

Definition bind {A B : Type} (c : res A) (k : A -> res B) : res B :=
  match c with
  | OK a => k a
  | Raise e => Raise e
  end.

Notation "x <- c ;; k" := (bind c (fun x => k))
  (at level 61, c at next level, right associativity).

Definition fmap {A B : Type} (f : A -> B) (c : res A) : res B :=
  x <- c ;; OK (f x).

Fixpoint mapM {A B : Type} (f : A -> res B) (l : list A) : res (list B) :=
  match l with
  | [] => OK []
  | a :: l' => b <- f a ;; bs <- mapM f l' ;; OK (b :: bs)
  end.

(** ** Floats *)

Inductive fval : Type :=
| NaN
| NInf
| Fin (q : Q)
| PInf.

Definition isnan (x : fval) : bool :=
  match x with NaN => true | _ => false end.

(** IEEE comparisons: every comparison with NaN is false, except [!=]. *)
Definition fle (a b : fval) : bool :=
  match a, b with
  | NaN, _ | _, NaN => false
  | NInf, _ => true
  | _, PInf => true
  | Fin x, Fin y => Qle_bool x y
  | _, _ => false
  end.

Definition flt (a b : fval) : bool :=
  match a, b with
  | NaN, _ | _, NaN => false
  | _, _ => negb (fle b a)
  end.

Definition feqb (a b : fval) : bool :=
  match a, b with
  | NInf, NInf | PInf, PInf => true
  | Fin x, Fin y => Qeq_bool x y
  | _, _ => false
  end.

Definition fneb (a b : fval) : bool := negb (feqb a b).

(** ** NumPy helpers *)

(** [a[mask]]: the elements selected by a boolean mask. *)
Fixpoint seleccionar {A : Type} (mask : list bool) (a : list A) : list A :=
  match mask, a with
  | m :: mask', x :: a' =>
      if m then x :: seleccionar mask' a' else seleccionar mask' a'
  | _, _ => []
  end.

(** [a[mask] = vals]: the selected positions are overwritten, in order. *)
Fixpoint asignar {A : Type} (mask : list bool) (a vals : list A) : list A :=
  match mask, a with
  | m :: mask', x :: a' =>
      if m
      then match vals with
           | v :: vals' => v :: asignar mask' a' vals'
           | [] => x :: asignar mask' a' []
           end
      else x :: asignar mask' a' vals
  | _, _ => a
  end.

(** Indexing with a possibly negative index, as Python and NumPy do. *)
Definition indexar {A : Type} (a : list A) (i : Z) : res A :=
  let n := Z.of_nat (length a) in
  let j := if (i <? 0)%Z then (i + n)%Z else i in
  if (j <? 0)%Z then Raise IndexError
  else match nth_error a (Z.to_nat j) with
       | Some x => OK x
       | None => Raise IndexError
       end.

(** Storing an integer into a [uint8] array wraps modulo 256. *)
Definition uint8 (c : Z) : Z := (c mod 256)%Z.

(** The order NumPy sorts by: IEEE order with NaN after everything. *)
Definition np_lt (a b : fval) : bool :=
  match a, b with
  | NaN, _ => false
  | _, NaN => true
  | _, _ => flt a b
  end.

(** [np.searchsorted(a, v, side)] on a sorted array: the number of elements
    strictly below [v] ([side='left']) or not above it ([side='right']). *)
Definition searchsorted (a : list fval) (v : fval) (side_right : bool) : nat :=
  length (filter (fun b => if side_right then negb (np_lt v b) else np_lt b v) a).

(** NumPy's monotonicity test of the bin edges: [1] increasing (or constant),
    [-1] decreasing, [0] neither. *)
Fixpoint no_desciende (last : fval) (l : list fval) : bool :=
  match l with
  | [] => true
  | next :: l' => negb (flt next last) && no_desciende next l'
  end.

Fixpoint no_asciende (last : fval) (l : list fval) : bool :=
  match l with
  | [] => true
  | next :: l' => negb (flt last next) && no_asciende next l'
  end.

Fixpoint monotonicity_desde (last : fval) (l : list fval) : Z :=
  match l with
  | [] => 1
  | next :: l' =>
      if feqb next last then monotonicity_desde last l'
      else if flt last next
           then (if no_desciende next l' then 1 else 0)
           else (if no_asciende next l' then -1 else 0)
  end%Z.

Definition monotonicity (bins : list fval) : Z :=
  match bins with
  | [] => 1%Z
  | a0 :: l => monotonicity_desde a0 l
  end.

(** [np.digitize(x, bins, right)]: the bins are tested once, then every
    value is located by [searchsorted]; decreasing bins are searched
    reversed. *)
Definition digitize_mono (mono : Z) (x : fval) (bins : list fval)
  (right : bool) : Z :=
  let side_right := negb right in
  if (mono =? -1)%Z
  then (Z.of_nat (length bins)
        - Z.of_nat (searchsorted (rev bins) x side_right))%Z
  else Z.of_nat (searchsorted bins x side_right).

Definition digitize (x : fval) (bins : list fval) (right : bool) : res Z :=
  let mono := monotonicity bins in
  if (mono =? 0)%Z then Raise ValueError
  else OK (digitize_mono mono x bins right).

Definition digitize_array (xs : list fval) (bins : list fval) (right : bool)
  : res (list Z) :=
  let mono := monotonicity bins in
  if (mono =? 0)%Z then Raise ValueError
  else OK (map (fun x => digitize_mono mono x bins right) xs).

(** ** config.py: the threshold scheme and the Classifier *)

Record umbrales : Type := {
  bins : list fval;
  clases : list Z
}.

Definition UMBRALES_AMENAZA : umbrales := {|
  bins := [Fin 0; Fin 1; Fin (12 # 10); Fin (15 # 10); Fin 2; PInf];
  clases := [5; 4; 3; 2; 1]%Z
|}.

(** [clasificar_fs] reads the module-level [UMBRALES_AMENAZA]; the scheme is
    made an explicit argument [U]. *)
Definition clasificar_fs (U : umbrales) (fs_value : fval) : res Z :=
  if isnan fs_value then OK 0%Z
  else
    d <- digitize fs_value (bins U) false ;;
    let idx := (d - 1)%Z in
    let idx := Z.max 0 (Z.min idx (Z.of_nat (length (clases U)) - 1)) in
    indexar (clases U) idx.

Definition clasificar_fs_array (U : umbrales) (fs_array : list fval)
  : res (list Z) :=
  let result := map (fun _ => 0%Z) fs_array in
  let valid_mask :=
    map (fun x => fneb x (Fin 0) && negb (isnan x)) fs_array in
  if negb (existsb (fun b => b) valid_mask) then OK result
  else
    indices <- digitize_array (seleccionar valid_mask fs_array) (bins U)
                              false ;;
    let indices := map (fun d => (d - 1)%Z) indices in
    let indices :=
      map (fun i => Z.min (Z.max i 0) (Z.of_nat (length (clases U)) - 1))
          indices in
    vals <- mapM (indexar (clases U)) indices ;;
    OK (asignar valid_mask result (map uint8 vals)).

(** ** mapa_amenaza_pijao.py: the point table *)

Definition punto : Type := (Q * Q)%type.

(** One row of the point [GeoDataFrame].  [geom] is the coordinate pair the
    code reads: the point itself, or the centroid of another geometry.  A
    cell of a column the table does not have is never read. *)
Record fila : Type := {
  geom : punto;
  ID : Z;
  FS_min : fval;
  haz_num : option Z;          (* [None] is NA *)
  CLASIFICACION : string;
  FS_cols : list fval          (* the other [FS_*] columns, already numeric *)
}.

Record GeoDataFrame : Type := {
  tiene_ID : bool;             (* ['ID' in gdf.columns] *)
  tiene_FS_min : bool;
  tiene_haz_num : bool;
  tiene_CLASIFICACION : bool;
  columnas_FS : nat;           (* how many other [FS_*] columns there are *)
  filas : list fila
}.

Definition fmin (a b : fval) : fval := if fle b a then b else a.

(** [min(axis=1, skipna=True)] of one row: NaN when nothing is left. *)
Definition min_skipna (l : list fval) : fval :=
  match filter (fun x => negb (isnan x)) l with
  | [] => NaN
  | x :: l' => fold_left fmin l' x
  end.

Definition ensure_fs_min (gdf : GeoDataFrame) : GeoDataFrame :=
  if tiene_FS_min gdf then gdf
  else if (columnas_FS gdf =? 0)%nat then gdf
  else {|
    tiene_ID := tiene_ID gdf;
    tiene_FS_min := true;
    tiene_haz_num := tiene_haz_num gdf;
    tiene_CLASIFICACION := tiene_CLASIFICACION gdf;
    columnas_FS := columnas_FS gdf;
    filas := map (fun f => {| geom := geom f; ID := ID f;
                              FS_min := min_skipna (FS_cols f);
                              haz_num := haz_num f;
                              CLASIFICACION := CLASIFICACION f;
                              FS_cols := FS_cols f |}) (filas gdf)
  |}.

(** [str.upper()] and [str.strip()], on ASCII text. *)
Definition upper_ascii (c : ascii) : ascii :=
  let n := nat_of_ascii c in
  if ((97 <=? n) && (n <=? 122))%nat then ascii_of_nat (n - 32) else c.

Definition isspace (c : ascii) : bool :=
  let n := nat_of_ascii c in
  (((9 <=? n) && (n <=? 13)) || ((28 <=? n) && (n <=? 32)))%nat.

Fixpoint lstrip (l : list ascii) : list ascii :=
  match l with
  | c :: l' => if isspace c then lstrip l' else l
  | [] => []
  end.

Definition upper (s : string) : string :=
  string_of_list_ascii (map upper_ascii (list_ascii_of_string s)).

Definition strip (s : string) : string :=
  string_of_list_ascii (rev (lstrip (rev (lstrip (list_ascii_of_string s))))).

Definition mapa (s : string) : option Z :=
  if String.eqb s "MUY BAJA" then Some 1%Z
  else if String.eqb s "BAJA" then Some 2%Z
  else if String.eqb s "MEDIA" then Some 3%Z
  else if String.eqb s "ALTA" then Some 4%Z
  else if String.eqb s "MUY ALTA" then Some 5%Z
  else None.

(** The thresholds written inside [ensure_haz_num]. *)
Definition fs_to_h (fs : fval) : option Z :=
  if isnan fs then None
  else if fle (Fin (150 # 100)) fs then Some 1%Z
  else if fle (Fin (130 # 100)) fs then Some 2%Z
  else if fle (Fin (110 # 100)) fs then Some 3%Z
  else if fle (Fin (100 # 100)) fs then Some 4%Z
  else Some 5%Z.

Definition con_haz_num (g : GeoDataFrame) (h : fila -> option Z)
  : GeoDataFrame := {|
    tiene_ID := tiene_ID g;
    tiene_FS_min := tiene_FS_min g;
    tiene_haz_num := true;
    tiene_CLASIFICACION := tiene_CLASIFICACION g;
    columnas_FS := columnas_FS g;
    filas := map (fun f => {| geom := geom f; ID := ID f; FS_min := FS_min f;
                              haz_num := h f;
                              CLASIFICACION := CLASIFICACION f;
                              FS_cols := FS_cols f |}) (filas g)
  |}.

Definition isna (h : option Z) : bool :=
  match h with None => true | Some _ => false end.

Definition ensure_haz_num (gdf : GeoDataFrame) : GeoDataFrame :=
  if tiene_haz_num gdf then gdf
  else
    let g := gdf in
    let g := if tiene_CLASIFICACION g
             then con_haz_num g (fun f => mapa (strip (upper (CLASIFICACION f))))
             else g in
    if negb (tiene_haz_num g) || forallb (fun f => isna (haz_num f)) (filas g)
    then
      let g := ensure_fs_min g in
      if tiene_FS_min g
      then con_haz_num g (fun f => fs_to_h (FS_min f))
      else g
    else g.

(** The raster thresholds of [mapa_amenaza_pijao.py]. *)
Definition UMBRALES_FS : umbrales := {|
  bins := [Fin 0; Fin 1; Fin (12 # 10); Fin (15 # 10); Fin 2; PInf];
  clases := [5; 4; 3; 2; 1]%Z
|}.

(** ** Statistics *)

(** [puntos_gdf[puntos_gdf['FS_min'] < 1.0]] of
    [calcular_estadisticas_puntos] and [generar_informe_tecnico]. *)
Definition puntos_criticos (puntos_gdf : GeoDataFrame) : list fila :=
  filter (fun f => flt (FS_min f) (Fin 1)) (filas puntos_gdf).

Definition ge_haz (h : option Z) (n : Z) : bool :=
  match h with Some v => (n <=? v)%Z | None => false end.

(** The KPI of [pages/1_Estadisticas.py]. *)
Definition criticos (puntos : GeoDataFrame) : nat :=
  let criticos :=
    if tiene_haz_num puntos
    then length (filter (fun f => ge_haz (haz_num f) 5) (filas puntos))
    else 0%nat in
  if tiene_FS_min puntos
  then length (filter (fun f => flt (FS_min f) (Fin 1)) (filas puntos))
  else criticos.

(** ** Raster reclassification *)

Fixpoint enumerate {A : Type} (start : Z) (l : list A) : list (Z * A) :=
  match l with
  | [] => []
  | a :: l' => (start, a) :: enumerate (start + 1) l'
  end.

(** [a[mask] = c] with a scalar [c]. *)
Fixpoint asignar_escalar {A : Type} (mask : list bool) (a : list A) (c : A)
  : list A :=
  match mask, a with
  | m :: mask', x :: a' => (if m then c else x) :: asignar_escalar mask' a' c
  | _, _ => a
  end.

Definition reclasificar_fs_a_haz (fs_continuo : list fval) (umbrales : umbrales)
  : res (list Z) :=
  indices <- digitize_array fs_continuo (bins umbrales) true ;;
  let raster_clasificado := map (fun _ => 0%Z) fs_continuo in
  OK (fold_left
        (fun raster ic =>
           let mask := map (fun d => (d =? fst ic)%Z) indices in
           asignar_escalar mask raster (uint8 (snd ic)))
        (enumerate 1 (clases umbrales))
        raster_clasificado).

(** ** Float arithmetic used by the weighted sum *)

Definition fmul (a b : fval) : fval :=
  match a, b with
  | NaN, _ | _, NaN => NaN
  | Fin x, Fin y => Fin (x * y)
  | Fin x, PInf | PInf, Fin x =>
      match x ?= 0 with Eq => NaN | Lt => NInf | Gt => PInf end
  | Fin x, NInf | NInf, Fin x =>
      match x ?= 0 with Eq => NaN | Lt => PInf | Gt => NInf end
  | PInf, PInf | NInf, NInf => PInf
  | PInf, NInf | NInf, PInf => NInf
  end.

Definition fadd (a b : fval) : fval :=
  match a, b with
  | NaN, _ | _, NaN => NaN
  | Fin x, Fin y => Fin (x + y)
  | PInf, NInf | NInf, PInf => NaN
  | PInf, _ | _, PInf => PInf
  | NInf, _ | _, NInf => NInf
  end.

(** [np.sum] of a row. *)
Fixpoint fsum (l : list fval) : fval :=
  match l with
  | [] => Fin 0
  | x :: l' => fadd x (fsum l')
  end.

Fixpoint Qsum (l : list Q) : Q :=
  match l with
  | [] => 0
  | x :: l' => x + Qsum l'
  end.

(** Element-wise product of two rows of equal length. *)
Fixpoint mul_filas (w : list Q) (v : list fval) : list fval :=
  match w, v with
  | x :: w', y :: v' => fmul (Fin x) y :: mul_filas w' v'
  | _, _ => []
  end.

(** ** IDW interpolation and the hazard raster *)

(** The floor [1e-10] of [np.maximum(distances, 1e-10)]. *)
Definition epsilon : Q := 1 # 10000000000.

(** One grid cell: the query coordinate taken from [xi], [yi], and whether
    [geometry_mask(..., invert=True)] reports the cell inside the area. *)
Record celda : Type := {
  xy : punto;
  dentro : bool
}.

Inductive metodo : Set := idw | nearest.

Record raster : Type := {
  zi_continuo : list fval;
  zi_clasificado : list Z
}.

(** What [cKDTree.query] returns: for [k = 1] SciPy squeezes the last axis,
    so distances and indices have shape [(m,)]; for [k >= 2] they have shape
    [(m, k)]. *)
Inductive consulta : Type :=
| Vector (distances : list Q) (indices : list nat)
| Matriz (distances : list (list Q)) (indices : list (list nat)).

Section Interpolacion.

(** The Euclidean distance between two coordinate pairs as the k-d tree
    reports it.  It is a float, hence a rational; nothing else about it is
    used. *)
Variable distancia : punto -> punto -> Q.

(** Stable insertion by distance: among equal distances the lower sample
    index comes first. *)
Fixpoint insertar (x : Q * nat) (l : list (Q * nat)) : list (Q * nat) :=
  match l with
  | [] => [x]
  | y :: l' =>
      if Qle_bool (fst x) (fst y) then x :: l else y :: insertar x l'
  end.

Definition ordenar (l : list (Q * nat)) : list (Q * nat) :=
  fold_right insertar [] l.

(** The [k] nearest samples of a query location, nearest first. *)
Definition vecinos (puntos : list punto) (c : punto) (k : nat)
  : list (Q * nat) :=
  firstn k (ordenar (combine (map (distancia c) puntos)
                             (seq 0 (length puntos)))).

(** [cKDTree(puntos).query(consultas, k)], for [k] up to the number of
    samples.  Without samples the library refuses the call. *)
Definition query (puntos : list punto) (consultas : list punto) (k : nat)
  : res consulta :=
  match k with
  | O => Raise ValueError
  | 1%nat =>
      let nn := map (fun c => hd (0, O) (vecinos puntos c 1)) consultas in
      OK (Vector (map fst nn) (map snd nn))
  | _ =>
      let nn := map (fun c => vecinos puntos c k) consultas in
      OK (Matriz (map (map fst) nn) (map (map snd) nn))
  end.

(** [valores[indices]] for one row of indices. *)
Definition tomar (valores : list fval) (indices : list nat)
  : res (list fval) :=
  mapM (fun i => indexar valores (Z.of_nat i)) indices.

(** [xi], [yi] enter as the list [consultas] of their ravelled pairs, and
    the result is the ravelled grid. *)
Definition interpolar_idw (puntos : list punto) (consultas : list punto)
  (valores : list fval) (power : nat) : res (list fval) :=
  q <- query puntos consultas (Nat.min 10 (length puntos)) ;;
  match q with
  | Vector _ _ =>
      (* [weights.sum(axis=1)] on a one-dimensional array *)
      Raise AxisError
  | Matriz distances indices =>
      let distances := map (map (fun d => Qmax d epsilon)) distances in
      let weights :=
        map (map (fun d => 1 / d ^ Z.of_nat power)) distances in
      let weights :=
        map (fun fila => map (fun w => w / Qsum fila) fila) weights in
      vals <- mapM (tomar valores) indices ;;
      OK (map (fun wv => fsum (mul_filas (fst wv) (snd wv)))
              (combine weights vals))
  end.

(** [griddata(..., method='nearest')]: the value of the nearest sample. *)
Definition griddata_nearest (puntos : list punto) (valores : list fval)
  (consultas : list punto) : res (list fval) :=
  match puntos with
  | [] => Raise ValueError
  | _ =>
      mapM (fun c => indexar valores
                       (Z.of_nat (snd (hd (0, O) (vecinos puntos c 1)))))
           consultas
  end.

(** [generar_raster_amenaza] from the interpolation step on.  The grid is
    the list of its cells; [OK None] is the [(None, None, None)] return.
    The continuous surface is kept next to the classified one; the
    geotransform and the bounds are not modelled. *)
Definition generar_raster_amenaza (puntos_gdf : GeoDataFrame)
  (celdas : list celda) (method : metodo) : res (option raster) :=
  if negb (tiene_FS_min puntos_gdf) then OK None
  else
    let coords := map geom (filas puntos_gdf) in
    let vals_continuas := map FS_min (filas puntos_gdf) in
    let mask_validos := map (fun v => negb (isnan v)) vals_continuas in
    if negb (existsb (fun b => b) mask_validos) then OK None
    else
      let coords_validos := seleccionar mask_validos coords in
      let vals_validas := seleccionar mask_validos vals_continuas in
      zi <- match method with
            | idw => interpolar_idw coords_validos (map xy celdas)
                                    vals_validas 2
            | nearest => griddata_nearest coords_validos vals_validas
                                          (map xy celdas)
            end ;;
      let mask := map dentro celdas in
      let zi_continuo :=
        asignar_escalar (map negb mask) zi NaN in
      let mask_validos_raster :=
        map (fun z => negb (isnan z)) zi_continuo in
      let zi_clasificado := map (fun _ => 0%Z) zi_continuo in
      zi_clasificado <-
        (if existsb (fun b => b) mask_validos_raster
         then
           r <- reclasificar_fs_a_haz
                  (seleccionar mask_validos_raster zi_continuo)
                  UMBRALES_FS ;;
           OK (asignar mask_validos_raster zi_clasificado r)
         else OK zi_clasificado) ;;
      OK (Some {| zi_continuo := zi_continuo;
                  zi_clasificado := zi_clasificado |}).

End Interpolacion.

(** ** Voronoi zonation *)

(** What [scipy.spatial.Voronoi] exposes and the code reads. *)
Record voronoi : Type := {
  point_region : list Z;
  regions : list (list Z);
  vertices : list punto
}.

(** One record of the output [GeoDataFrame]. *)
Module Zona.
Record t (G : Type) : Type := {
  geometry : G;
  haz_num : Z;
  FS_min : option fval;
  punto_id : Z
}.
Arguments geometry {G} _.
Arguments haz_num {G} _.
Arguments FS_min {G} _.
Arguments punto_id {G} _.
End Zona.

Section Voronoi.

(** Shapely geometries and the operations the code calls on them, and the
    Qhull construction behind [Voronoi(all_pts)], which may raise. *)
Variable geometria : Type.
Variable Polygon : list punto -> geometria.
Variable intersection : geometria -> geometria -> geometria.
Variable is_empty : geometria -> bool.
Variable buffer : geometria -> Q -> geometria.
Variable bounds : geometria -> Q * Q * Q * Q.
Variable Voronoi : list punto -> res voronoi.

Definition columna (presente : bool) {A : Type} (v : A) : res A :=
  if presente then OK v else Raise KeyError.

(** The body of the loop over [range(n_real)]: [OK None] is [continue]. *)
Definition zona_de (vor : voronoi) (puntos_gdf : GeoDataFrame)
  (corredor_buffer : geometria) (point_idx : nat)
  : res (option (Zona.t geometria)) :=
  region_idx <- indexar (point_region vor) (Z.of_nat point_idx) ;;
  region <- indexar (regions vor) region_idx ;;
  if match region with [] => true | _ => false end
     || existsb (Z.eqb (-1)) region
  then OK None
  else
    verts <- mapM (indexar (vertices vor)) region ;;
    let poly := Polygon verts in
    let poly := intersection poly corredor_buffer in
    if is_empty poly then OK None
    else
      p <- indexar (filas puntos_gdf) (Z.of_nat point_idx) ;;
      h <- columna (tiene_haz_num puntos_gdf) (haz_num p) ;;
      h <- match h with Some h => OK h | None => Raise ValueError end ;;
      id <- columna (tiene_ID puntos_gdf) (ID p) ;;
      OK (Some {| Zona.geometry := poly;
                  Zona.haz_num := h;
                  Zona.FS_min := if tiene_FS_min puntos_gdf
                                 then Some (FS_min p) else None;
                  Zona.punto_id := id |}).

Fixpoint polys_de (l : list (option (Zona.t geometria)))
  : list (Zona.t geometria) :=
  match l with
  | [] => []
  | Some rec :: l' => rec :: polys_de l'
  | None :: l' => polys_de l'
  end.

(** [corredor] is [corredor_gdf.unary_union]. *)
Definition crear_poligonos_voronoi (puntos_gdf : GeoDataFrame)
  (corredor : geometria) (buffer_dist : Q)
  : res (list (Zona.t geometria)) :=
  let coords := map geom (filas puntos_gdf) in
  let n_real := length coords in
  let corredor_buffer := buffer corredor buffer_dist in
  let '(xmin, ymin, xmax, ymax) := bounds corredor_buffer in
  let pad := buffer_dist * 3 in
  let bbox_pts := [ (xmin - pad, ymin - pad);
                    (xmin - pad, ymax + pad);
                    (xmax + pad, ymin - pad);
                    (xmax + pad, ymax + pad) ] in
  let all_pts := coords ++ bbox_pts in
  vor <- Voronoi all_pts ;;
  polys <- mapM (zona_de vor puntos_gdf corredor_buffer) (seq 0 n_real) ;;
  OK (polys_de polys).

End Voronoi.

Arguments polys_de {geometria} l.
Arguments zona_de {geometria} Polygon intersection is_empty vor puntos_gdf
  corredor_buffer point_idx.
Arguments crear_poligonos_voronoi {geometria} Polygon intersection is_empty
  buffer bounds Voronoi puntos_gdf corredor buffer_dist.

(** ** Reference definitions for the statements *)

(** The class of a finite FS under the default scheme, bin by bin:
    left-closed bins, everything below [1.0] in class 5. *)
Definition clase_de (q : Q) : Z :=
  if Qle_bool 2 q then 1
  else if Qle_bool (15 # 10) q then 2
  else if Qle_bool (12 # 10) q then 3
  else if Qle_bool 1 q then 4
  else 5.

(** The class the raster reclassification gives a float: right-closed bins,
    and nothing at or below the first edge. *)
Definition clase_raster (x : fval) : Z :=
  match x with
  | Fin q =>
      if Qle_bool q 0 then 0
      else if Qle_bool q 1 then 5
      else if Qle_bool q (12 # 10) then 4
      else if Qle_bool q (15 # 10) then 3
      else if Qle_bool q 2 then 2
      else 1
  | PInf => 1
  | NInf | NaN => 0
  end.

(** A scheme whose only class does not fit in a [uint8]. *)
Definition esquema_300 : umbrales :=
  {| bins := [Fin 0; Fin 1]; clases := [300]%Z |}.

(** A point table that has the columns [ID] and [FS_min] only; its points
    lie one unit apart along the x axis. *)
Definition tabla_de_fs (l : list fval) : GeoDataFrame := {|
  tiene_ID := true;
  tiene_FS_min := true;
  tiene_haz_num := false;
  tiene_CLASIFICACION := false;
  columnas_FS := 0;
  filas := map (fun ifs => {| geom := (inject_Z (fst ifs), 0);
                              ID := fst ifs;
                              FS_min := snd ifs; haz_num := None;
                              CLASIFICACION := EmptyString;
                              FS_cols := [] |})
               (enumerate 0 l)
|}.

(** How many values of a column are strictly below [1.0], decided on the
    numbers themselves. *)
Fixpoint contar_menores_que_1 (l : list fval) : nat :=
  match l with
  | [] => 0
  | Fin q :: l' =>
      if Qlt_le_dec q 1 then S (contar_menores_que_1 l')
      else contar_menores_que_1 l'
  | NInf :: l' => S (contar_menores_que_1 l')
  | _ :: l' => contar_menores_que_1 l'
  end.

(** The IDW weight of a neighbour at distance [d], and the normalized
    weights of a row of neighbours. *)
Definition peso (power : nat) (d : Q) : Q :=
  1 / (Qmax d epsilon) ^ Z.of_nat power.

Definition pesos_normalizados (power : nat) (ds : list Q) : list Q :=
  map (fun d => peso power d / Qsum (map (peso power) ds)) ds.

Definition producto_punto (ws vs : list Q) : Q :=
  Qsum (map (fun wv => fst wv * snd wv) (combine ws vs)).

(** The weighted average of the values found at the neighbours [nn]. *)
Definition fila_idw (valores : list fval) (power : nat)
  (nn : list (Q * nat)) : res fval :=
  vs <- tomar valores (map snd nn) ;;
  OK (fsum (mul_filas (pesos_normalizados power (map fst nn)) vs)).




(** The Euclidean distance between two points of equal ordinate. *)
Definition distancia_en_x (p q : punto) : Q := Qabs (fst p - fst q).

(** [g] is the Voronoi cell of the input point [point_idx], clipped. *)
Definition celda_recortada {geometria : Type}
  (Polygon : list punto -> geometria)
  (intersection : geometria -> geometria -> geometria)
  (vor : voronoi) (corredor_buffer : geometria)
  (point_idx : nat) (g : geometria) : Prop :=
  exists region_idx region verts,
    indexar (point_region vor) (Z.of_nat point_idx) = OK region_idx /\
    indexar (regions vor) region_idx = OK region /\
    mapM (indexar (vertices vor)) region = OK verts /\
    g = intersection (Polygon verts) corredor_buffer.

(** A small concrete geometry: a polygon is its vertex list, clipping keeps
    it, and the diagram of one point and four corners is given. *)
Module Ejemplo.

Definition geometria : Type := list punto.

Definition Polygon (vs : list punto) : geometria := vs.

Definition intersection (a b : geometria) : geometria := a.

Definition is_empty (g : geometria) : bool :=
  match g with [] => true | _ => false end.

Definition buffer (g : geometria) (d : Q) : geometria := g.

Definition bounds (g : geometria) : Q * Q * Q * Q := (0, 0, 10, 10).

Definition Voronoi (pts : list punto) : res voronoi :=
  OK {| point_region := [1; 0; 0; 0; 0]%Z;
        regions := [[-1; 0]; [0; 1; 2; 3]]%Z;
        vertices := [(-5, -5); (15, -5); (15, 15); (-5, 15)] |}.

Definition puntos : GeoDataFrame := {|
  tiene_ID := true;
  tiene_FS_min := true;
  tiene_haz_num := true;
  tiene_CLASIFICACION := false;
  columnas_FS := 0;
  filas := [ {| geom := (5, 5); ID := 7%Z; FS_min := Fin (11 # 10);
                haz_num := Some 4%Z; CLASIFICACION := EmptyString;
                FS_cols := [] |} ]
|}.

Definition zona : Zona.t geometria := {|
  Zona.geometry := [(-5, -5); (15, -5); (15, 15); (-5, 15)];
  Zona.haz_num := 4%Z;
  Zona.FS_min := Some (Fin (11 # 10));
  Zona.punto_id := 7%Z
|}.

End Ejemplo.

(** ** Further reference definitions *)

(** What the array path treats as nodata: NaN and zero. *)
Definition es_nodata (x : fval) : bool := isnan x || feqb x (Fin 0).

(** How many values of a column are valid (not NaN). *)
Definition contar_validos (l : list fval) : nat :=
  length (filter (fun v => negb (isnan v)) l).


(** ** mapa_amenaza_pijao.py: coordinate systems *)

(** Python's [int()] of a finite float: truncation towards zero. *)
Definition int_de (q : Q) : Z := Z.quot (Qnum q) (Zpos (Qden q)).

(** [_utm_epsg]: [c] is the centroid [(lon, lat)] of the layer's union. *)
Definition _utm_epsg (c : punto) : Z :=
  let '(lon, lat) := c in
  let zone := (int_de ((lon + 180) / 6) + 1)%Z in
  if Qle_bool 0 lat then (32600 + zone)%Z else (32700 + zone)%Z.

Section Proyeccion.

(** pyproj's coordinate reference systems: whether one is geographic, the
    system of an EPSG code (an unknown code raises), equality of systems,
    and the transformation of a layer's geometries, which the model keeps
    abstract. *)
Variable CRS : Type.
Variable is_geographic : CRS -> bool.
Variable from_epsg : Z -> res CRS.
Variable crs_eqb : CRS -> CRS -> bool.
Variable geometrias : Type.
Variable transformar : CRS -> CRS -> geometrias -> geometrias.
Variable centroid : geometrias -> punto.

(** A layer: its system, if it has one, its geometries and their number. *)
Record capa : Type := {
  crs : option CRS;
  geoms : geometrias;
  len : nat
}.

(** [gdf.to_crs(destino)]: a layer without a system cannot be
    transformed. *)
Definition to_crs (gdf : capa) (destino : CRS) : res capa :=
  match crs gdf with
  | None => Raise ValueError
  | Some origen =>
      OK {| crs := Some destino;
            geoms := transformar origen destino (geoms gdf);
            len := len gdf |}
  end.

(** [a != b] on the [crs] attribute. *)
Definition crs_distinto (a b : option CRS) : bool :=
  match a, b with
  | Some x, Some y => negb (crs_eqb x y)
  | None, None => false
  | _, _ => true
  end.

Definition ensure_projected (corredor_gdf puntos_gdf : capa)
  : res (capa * capa) :=
  corredor_gdf <-
    (if match crs corredor_gdf with
        | None => true
        | Some c => is_geographic c
        end
     then
       let epsg := _utm_epsg (centroid (geoms (if (len corredor_gdf =? 0)%nat
                                                then puntos_gdf
                                                else corredor_gdf))) in
       destino <- from_epsg epsg ;;
       to_crs corredor_gdf destino
     else OK corredor_gdf) ;;
  puntos_gdf <-
    (if crs_distinto (crs puntos_gdf) (crs corredor_gdf)
     then match crs corredor_gdf with
          | Some destino => to_crs puntos_gdf destino
          | None => Raise ValueError
          end
     else OK puntos_gdf) ;;
  OK (corredor_gdf, puntos_gdf).

End Proyeccion.

Arguments crs {CRS geometrias} c.
Arguments geoms {CRS geometrias} c.
Arguments len {CRS geometrias} c.
Arguments to_crs {CRS geometrias} transformar gdf destino.
Arguments crs_distinto {CRS} crs_eqb a b.
Arguments ensure_projected {CRS} is_geographic from_epsg crs_eqb {geometrias}
  transformar centroid corredor_gdf puntos_gdf.

(** A small concrete instance: a system is its EPSG code, 4326 is the
    geographic one, and transforming leaves the coordinates alone. *)
Module EjemploCRS.

Definition CRS : Type := Z.

Definition is_geographic (c : CRS) : bool := (c =? 4326)%Z.

Definition from_epsg (code : Z) : res CRS := OK code.

Definition crs_eqb (a b : CRS) : bool := (a =? b)%Z.

Definition geometrias : Type := list punto.

Definition transformar (a b : CRS) (g : geometrias) : geometrias := g.

Definition centroid (g : geometrias) : punto := hd (0, 0) g.

Definition corredor : capa CRS geometrias :=
  {| crs := Some 4326%Z; geoms := [(- (7568 # 100), 432 # 100)]; len := 1 |}.

Definition puntos : capa CRS geometrias :=
  {| crs := Some 4326%Z; geoms := [(- (7569 # 100), 433 # 100)]; len := 1 |}.

End EjemploCRS.

(** ** utils/data_loader.py and utils/geotiff_overlay.py: rasters *)

Definition VALORES_DISCRETOS_VALIDOS : list Z := [0; 1; 2; 3; 4; 5]%Z.

(** [v in VALORES_DISCRETOS_VALIDOS]: membership by numeric equality. *)
Definition en_conjunto (v : fval) (s : list Z) : bool :=
  match v with
  | Fin q => existsb (fun z => Qeq_bool q (inject_Z z)) s
  | _ => false
  end.

(** [float(v).is_integer() and int(v) in VALORES_DISCRETOS_VALIDOS]. *)
Definition entero_en_conjunto (v : fval) (s : list Z) : bool :=
  match v with
  | Fin q => Qeq_bool q (inject_Z (Qfloor q)) && existsb (Z.eqb (int_de q)) s
  | _ => false
  end.

(** [np.unique]: the distinct values, ascending. *)
Fixpoint insertar_unico (x : fval) (l : list fval) : list fval :=
  match l with
  | [] => [x]
  | y :: l' =>
      if feqb x y then l
      else if np_lt x y then x :: l
      else y :: insertar_unico x l'
  end.

Definition unique (l : list fval) : list fval :=
  fold_right insertar_unico [] l.

(** The test both loaders make on band 1 of the raster. *)
Definition detect_raster_type (data : list fval) : bool :=
  let valid_mask :=
    map (fun x => fneb x (Fin 0) && negb (isnan x)) data in
  let valid_data := seleccionar valid_mask data in
  if (length valid_data =? 0)%nat then true
  else
    let unique_vals := unique valid_data in
    forallb (fun v => en_conjunto v VALORES_DISCRETOS_VALIDOS
                      || entero_en_conjunto v VALORES_DISCRETOS_VALIDOS)
            unique_vals.

(** A class read back as a raster value. *)
Definition de_clase (c : Z) : fval := Fin (inject_Z c).

Definition rgba : Type := (Z * Z * Z * Z)%type.

Definition COLORES_RGBA : list (Z * rgba) :=
  [ (1, (26, 150, 65, 180));
    (2, (166, 217, 106, 180));
    (3, (255, 255, 191, 180));
    (4, (253, 174, 97, 180));
    (5, (215, 25, 28, 180)) ]%Z.

Definition alpha (px : rgba) : Z := snd px.

Definition sin_alpha (px : rgba) : rgba :=
  let '(r, g, b, _) := px in (r, g, b, 0%Z).

(** A colour stored into the [uint8] image. *)
Definition px_uint8 (px : rgba) : rgba :=
  let '(r, g, b, a) := px in (uint8 r, uint8 g, uint8 b, uint8 a).

Section Carga_raster.

(** [data.astype(np.float32)], cell by cell. *)
Variable a_float32 : fval -> fval.


(** [raster_to_png_base64] up to the RGBA array that is encoded. *)
Definition raster_to_png_base64 (data : list fval)
  (colormap : list (Z * rgba)) (nodata_value : Z) (is_discrete : bool)
  : res (list rgba) :=
  data <- (if negb is_discrete
           then d <- clasificar_fs_array UMBRALES_AMENAZA
                       (map a_float32 data) ;;
                OK (map de_clase d)
           else OK data) ;;
  let rgba0 := map (fun _ => (0, 0, 0, 0)%Z) data in
  let rgba1 :=
    fold_left
      (fun (img : list rgba) (cc : Z * rgba) =>
         let mask := map (fun v => feqb v (de_clase (fst cc))) data in
         asignar_escalar mask img (px_uint8 (snd cc)))
      colormap rgba0 in
  let mask_nodata := map (fun v => feqb v (de_clase nodata_value)) data in
  OK (map (fun mp : bool * rgba =>
            if fst mp then sin_alpha (snd mp) else snd mp)
          (combine mask_nodata rgba1)).

(** [raster_to_folium_overlay]: the image and the flags [is_discrete] and
    [reclassified]. *)
Definition raster_to_folium_overlay (data : list fval)
  (colormap : list (Z * rgba)) (auto_detect : bool)
  : res (list rgba * bool * bool) :=
  let is_discrete := detect_raster_type data in
  let reclassified := auto_detect && negb is_discrete in
  img <- raster_to_png_base64 data colormap 0
           (if auto_detect then is_discrete else true) ;;
  OK (img, is_discrete, reclassified).

End Carga_raster.

(** *** Reference definitions for the rasters *)

(** A raster value that counts as discrete: NaN, or one of the whole numbers
    0 to 5. *)
Definition valor_discreto (v : fval) : Prop :=
  v = NaN \/
  exists (q : Q) (z : Z), v = Fin q /\ (0 <= z <= 5)%Z /\ q == inject_Z z.

(** The class the array Classifier stores for one cell under the default
    scheme. *)
Definition clase_de_celda (x : fval) : Z :=
  match x with
  | NaN => 0%Z
  | NInf => 5%Z
  | PInf => 1%Z
  | Fin q => if Qeq_bool q 0 then 0%Z else clase_de q
  end.

(** The pixel drawn for a cell of value [v] with the default colours. *)
Definition color_de (v : fval) : rgba :=
  match v with
  | Fin q =>
      if Qeq_bool q 1 then (26, 150, 65, 180)%Z
      else if Qeq_bool q 2 then (166, 217, 106, 180)%Z
      else if Qeq_bool q 3 then (255, 255, 191, 180)%Z
      else if Qeq_bool q 4 then (253, 174, 97, 180)%Z
      else if Qeq_bool q 5 then (215, 25, 28, 180)%Z
      else (0, 0, 0, 0)%Z
  | _ => (0, 0, 0, 0)%Z
  end.

(** ** mapa_amenaza_pijao.py: the grid of [generar_raster_amenaza] *)




(** The affine transform of a north-up raster: pixel sizes and the upper
    left corner. *)
Record Affine : Type := {
  a : Q;
  c : Q;
  e : Q;
  f : Q
}.


(** The centre of the pixel at [row], [col], where [geometry_mask] tests
    the area. *)
Definition centro (t : Affine) (row col : Z) : punto :=
  (c t + (inject_Z col + (1 # 2)) * a t, f t + (inject_Z row + (1 # 2)) * e t).



(** ** The point table of the dashboard and the ID column *)

Definition tabla (id fs haz : bool) (g : GeoDataFrame) (l : list fila)
  : GeoDataFrame := {|
    tiene_ID := id;
    tiene_FS_min := fs;
    tiene_haz_num := haz;
    tiene_CLASIFICACION := tiene_CLASIFICACION g;
    columnas_FS := columnas_FS g;
    filas := l
  |}.


Definition fila_con_ID (f : fila) (i : Z) : fila :=
  {| geom := geom f; ID := i; FS_min := FS_min f; haz_num := haz_num f;
     CLASIFICACION := CLASIFICACION f; FS_cols := FS_cols f |}.



(** [gdf['ID'] = columna], [columna] having one value per row. *)
Definition con_ID (g : GeoDataFrame) (columna : list Z) : GeoDataFrame :=
  tabla true (tiene_FS_min g) (tiene_haz_num g) g
        (map (fun fi => fila_con_ID (fst fi) (snd fi))
             (combine (filas g) columna)).

(** [np.arange(len(gdf))] and [range(1, len(gdf) + 1)]. *)
Definition arange (desde : Z) (n : nat) : list Z :=
  map (fun i => (desde + Z.of_nat i)%Z) (seq 0 n).

(** [ensure_id_column] of the pipeline.  The table type has the column
    ['ID'] only: [otra] is the first of the columns ['Sondeo'], ['SONDEO'],
    ['fid'], ['FID'] that the table has, if any. *)
Definition ensure_id_column (otra : option (list Z)) (gdf : GeoDataFrame)
  : GeoDataFrame :=
  if tiene_ID gdf then con_ID gdf (map ID (filas gdf))
  else match otra with
       | Some columna => con_ID gdf columna
       | None => con_ID gdf (arange 0 (length (filas gdf)))
       end.

Section Preparar.

(** [gdf.geometry.centroid], taken through EPSG:3116 when the CRS is
    geographic. *)
Variable centroides : GeoDataFrame -> list punto.


End Preparar.


(** ** config.py: the regions on disk *)

Definition ARCHIVOS_REGION : list (string * string) :=
  [ ("raster", "raster_amenaza.tif");
    ("corredor", "corredor.gpkg");
    ("puntos", "puntos.gpkg");
    ("voronoi", "voronoi.gpkg") ]%string.

(** [d[k]] of a dict kept as an association list. *)
Fixpoint buscar {A : Type} (k : string) (d : list (string * A)) : option A :=
  match d with
  | [] => None
  | (k', v) :: d' => if String.eqb k k' then Some v else buscar k d'
  end.

(** [sorted] on strings.  Python orders strings by code point, which is the
    order of their UTF-8 bytes. *)
Fixpoint insertar_cadena (x : string) (l : list string) : list string :=
  match l with
  | [] => [x]
  | y :: l' => if String.leb x y then x :: l else y :: insertar_cadena x l'
  end.

Definition sorted (l : list string) : list string :=
  fold_right insertar_cadena [] l.

Fixpoint ascendente (l : list string) : bool :=
  match l with
  | x :: l' =>
      match l' with
      | y :: _ => String.leb x y && ascendente l'
      | [] => true
      end
  | [] => true
  end.

Section Regiones.

(** The data directory: whether it exists, the names of its entries in the
    order [iterdir] yields them, which of them are directories, and which
    files [DATA_DIR / region / filename] exist. *)
Variable DATA_DIR_exists : bool.
Variable iterdir : list string.
Variable is_dir : string -> bool.
Variable exists_ : string -> string -> bool.

Definition get_regiones_disponibles : list string :=
  let regiones := [] in
  if negb DATA_DIR_exists then regiones
  else
    let regiones :=
      regiones ++
      filter (fun subdir =>
                is_dir subdir && exists_ subdir "puntos.gpkg") iterdir in
    sorted regiones.

(** A path below [DATA_DIR]: the region and the file name. *)
Definition get_archivos_region (region : string)
  : list (string * option (string * string)) :=
  map (fun kf : string * string =>
         (fst kf,
          if exists_ region (snd kf) then Some (region, snd kf) else None))
      ARCHIVOS_REGION.

End Regiones.

(** * Properties *)

(** ** Generic facts about the helpers *)

Ltac q_casos :=
  repeat match goal with
  | |- context [Qle_bool ?a ?b] =>
      let E := fresh "E" in
      destruct (Qle_bool a b) eqn:E;
      [ apply Qle_bool_iff in E
      | apply not_true_iff_false in E; rewrite Qle_bool_iff in E ]
  end.

Lemma mapM_OK_Forall2 {A B} (f : A -> res B) (l : list A) (r : list B) :
  mapM f l = OK r -> Forall2 (fun a b => f a = OK b) l r.
Proof.
  revert r. induction l as [|a l IH]; intros r H; cbn in H.
  - inversion H. constructor.
  - destruct (f a) as [b|] eqn:Ea; [|discriminate]. cbn in H.
    destruct (mapM f l) as [bs|]; [|discriminate]. cbn in H.
    inversion H; subst. constructor; auto.
Qed.

Lemma mapM_length {A B} (f : A -> res B) (l : list A) (r : list B) :
  mapM f l = OK r -> length r = length l.
Proof.
  intros H. apply mapM_OK_Forall2 in H.
  induction H; cbn; congruence.
Qed.

Lemma mapM_total {A B} (f : A -> res B) (l : list A) :
  (forall a, In a l -> exists b, f a = OK b) ->
  exists r, mapM f l = OK r.
Proof.
  induction l as [|a l IH]; intros H; cbn.
  - eexists; reflexivity.
  - destruct (H a (or_introl eq_refl)) as [b ->].
    destruct IH as [r ->]; [intros; apply H; right; assumption|].
    eexists; reflexivity.
Qed.


Lemma Forall2_In_r {A B} (P : A -> B -> Prop) (l : list A) (r : list B) b :
  Forall2 P l r -> In b r -> exists a, In a l /\ P a b.
Proof.
  induction 1 as [|a b' l r Hab Hlr IH]; intros Hb; [destruct Hb|].
  destruct Hb as [->|Hb].
  - exists a. split; [left; reflexivity | exact Hab].
  - destruct (IH Hb) as [a' [Ha' Pa']]. exists a'. split; [right|]; assumption.
Qed.

Lemma In_firstn {A} (n : nat) (l : list A) (x : A) :
  In x (firstn n l) -> In x l.
Proof.
  intros H. rewrite <- (firstn_skipn n l). apply in_or_app. left. exact H.
Qed.

Lemma indexar_nth {A} (a : list A) (i : Z) (x : A) :
  indexar a i = OK x -> (0 <= i)%Z -> nth_error a (Z.to_nat i) = Some x.
Proof.
  unfold indexar. intros H Hi.
  destruct (i <? 0)%Z eqn:E; [lia|].
  rewrite E in H.
  destruct (nth_error a (Z.to_nat i)); congruence.
Qed.

Lemma indexar_In {A} (a : list A) (i : Z) (x : A) :
  indexar a i = OK x -> In x a.
Proof.
  unfold indexar. intros H.
  destruct (_ <? 0)%Z; [discriminate|].
  destruct (nth_error a _) eqn:E; [|discriminate].
  inversion H; subst. eapply nth_error_In; eauto.
Qed.

Lemma indexar_nat {A} (a : list A) (i : nat) :
  (i < length a)%nat -> exists x, indexar a (Z.of_nat i) = OK x /\ In x a.
Proof.
  intros H. unfold indexar.
  destruct (Z.of_nat i <? 0)%Z eqn:E; [lia|]. rewrite E.
  rewrite Nat2Z.id.
  destruct (nth_error a i) as [x|] eqn:En.
  - exists x. split; [reflexivity|]. eapply nth_error_In; eauto.
  - apply nth_error_None in En. lia.
Qed.

Lemma uint8_id c : (0 <= c < 256)%Z -> uint8 c = c.
Proof. intros H. unfold uint8. apply Z.mod_small, H. Qed.

Lemma asignar_false {A} (mask : list bool) (a vals : list A) (i : nat) :
  nth_error mask i = Some false ->
  nth_error (asignar mask a vals) i = nth_error a i.
Proof.
  revert a vals i. induction mask as [|m mask IH]; intros a vals i H.
  - destruct i; discriminate.
  - destruct a as [|x a]; [reflexivity|].
    destruct i as [|i]; cbn in H.
    + inversion H; subst. reflexivity.
    + cbn [asignar]. destruct m.
      * destruct vals; cbn; apply IH, H.
      * cbn. apply IH, H.
Qed.

(** ** The Classifier *)

Lemma clasificar_fs_Fin q :
  clasificar_fs UMBRALES_AMENAZA (Fin q) = OK (clase_de q).
Proof.
  unfold clasificar_fs, digitize, digitize_mono, searchsorted, clase_de.
  change (monotonicity (bins UMBRALES_AMENAZA)) with 1%Z.
  cbn -[Qle_bool].
  q_casos; cbn; try reflexivity; exfalso; lra.
Qed.

Lemma clase_de_antitona q1 q2 : q1 < q2 -> (clase_de q2 <= clase_de q1)%Z.
Proof.
  intros H. unfold clase_de. q_casos; try lia; exfalso; lra.
Qed.

Lemma valid_mask_repeat_NaN n :
  existsb (fun b => b)
    (map (fun x => fneb x (Fin 0) && negb (isnan x)) (repeat NaN n)) = false.
Proof. induction n; cbn; auto. Qed.

(** C1 (as amended): for every finite x other than 0 and every scheme whose
    class values fit in the [uint8] result array, classifying the one-element
    array [x] gives the one-element list of the scalar classification, the
    same exception included. *)
Theorem clasificar_fs_array_unitario (U : umbrales) (x : Q) :
  ~ x == 0 ->
  Forall (fun c => (0 <= c < 256)%Z) (clases U) ->
  clasificar_fs_array U [Fin x] = fmap (fun c => [c]) (clasificar_fs U (Fin x)).
Proof.
  intros Hx Hc.
  unfold clasificar_fs_array, clasificar_fs, digitize_array, digitize, fmap.
  cbn [map isnan existsb seleccionar negb andb orb].
  assert (Hne : fneb (Fin x) (Fin 0) = true).
  { unfold fneb, feqb. destruct (Qeq_bool x 0) eqn:E; [|reflexivity].
    apply Qeq_bool_iff in E. contradiction. }
  rewrite Hne. cbn [negb andb orb existsb seleccionar map].
  destruct (monotonicity (bins U) =? 0)%Z; [reflexivity|].
  cbn [bind map mapM].
  set (d := digitize_mono _ _ _ _).
  set (n := Z.of_nat (length (clases U))).
  destruct (clases U) as [|c0 cs] eqn:Ecl.
  - subst n. cbn [length Z.of_nat Z.sub Z.add Z.opp Z.pos_sub].
    replace (Z.min (Z.max (d - 1) 0) (-1)) with (-1)%Z by lia.
    replace (Z.max 0 (Z.min (d - 1) (-1))) with 0%Z by lia.
    reflexivity.
  - assert (Hn : (1 <= n)%Z) by (subst n; cbn [length]; lia).
    replace (Z.min (Z.max (d - 1) 0) (n - 1))
      with (Z.max 0 (Z.min (d - 1) (n - 1))) by lia.
    destruct (indexar (c0 :: cs) _) as [c|e] eqn:Ei; [|reflexivity].
    cbn. rewrite uint8_id; [reflexivity|].
    apply indexar_In in Ei.
    rewrite Forall_forall in Hc. apply Hc, Ei.
Qed.

Lemma clasificar_fs_array_unitario_witness :
  clasificar_fs_array UMBRALES_AMENAZA [Fin (13 # 10)]
  = fmap (fun c => [c]) (clasificar_fs UMBRALES_AMENAZA (Fin (13 # 10))).
Proof.
  apply clasificar_fs_array_unitario.
  - intros H. discriminate H.
  - repeat constructor; cbn; lia.
Defined.

(** C1 (as stated) fails at x = 0, which the array path keeps as nodata while
    the scalar path puts it in class 5; and under a scheme with class 300 the
    array path stores 300 mod 256. *)
Lemma clasificar_fs_array_cero :
  clasificar_fs_array UMBRALES_AMENAZA [Fin 0] = OK [0%Z] /\
  fmap (fun c => [c]) (clasificar_fs UMBRALES_AMENAZA (Fin 0)) = OK [5%Z] /\
  clasificar_fs_array esquema_300 [Fin 1] = OK [44%Z] /\
  fmap (fun c => [c]) (clasificar_fs esquema_300 (Fin 1)) = OK [300%Z].
Proof. repeat split; reflexivity. Qed.

(** C3: under the default scheme the class never increases with FS, and
    1.0 is in class 4 while every FS below it, however close, is in
    class 5. *)
Theorem clasificar_fs_antitona :
  (forall FS1 FS2 : Q, FS1 < FS2 ->
     exists c1 c2 : Z,
       clasificar_fs UMBRALES_AMENAZA (Fin FS1) = OK c1 /\
       clasificar_fs UMBRALES_AMENAZA (Fin FS2) = OK c2 /\
       (c1 >= c2)%Z) /\
  (forall e : Q, 0 < e ->
     clasificar_fs UMBRALES_AMENAZA (Fin 1) = OK 4%Z /\
     clasificar_fs UMBRALES_AMENAZA (Fin (1 - e)) = OK 5%Z).
Proof.
  split.
  - intros FS1 FS2 H. exists (clase_de FS1), (clase_de FS2).
    rewrite !clasificar_fs_Fin. repeat split.
    apply Z.le_ge, clase_de_antitona, H.
  - intros e He. rewrite !clasificar_fs_Fin. split; [reflexivity|].
    f_equal. unfold clase_de. q_casos; try reflexivity; exfalso; lra.
Qed.

Lemma clasificar_fs_antitona_witness :
  (exists c1 c2 : Z,
     clasificar_fs UMBRALES_AMENAZA (Fin (9 # 10)) = OK c1 /\
     clasificar_fs UMBRALES_AMENAZA (Fin (13 # 10)) = OK c2 /\
     (c1 >= c2)%Z) /\
  clasificar_fs UMBRALES_AMENAZA (Fin 1) = OK 4%Z /\
  clasificar_fs UMBRALES_AMENAZA (Fin (1 - (1 # 1000))) = OK 5%Z.
Proof.
  split.
  - apply (proj1 clasificar_fs_antitona). reflexivity.
  - apply (proj2 clasificar_fs_antitona). reflexivity.
Defined.

(** C8: NaN is classified 0 by the scalar path, an all-NaN array gives an
    all-zero array, and in any array every NaN position of the input is 0 in
    the result; this holds for every scheme. *)
Theorem clasificar_fs_nodata (U : umbrales) :
  clasificar_fs U NaN = OK 0%Z /\
  (forall n : nat,
     clasificar_fs_array U (repeat NaN n) = OK (repeat 0%Z n)) /\
  (forall (fs_array : list fval) (result : list Z) (i : nat),
     clasificar_fs_array U fs_array = OK result ->
     nth_error fs_array i = Some NaN ->
     nth_error result i = Some 0%Z).
Proof.
  split; [reflexivity|]. split.
  - intros n. unfold clasificar_fs_array.
    rewrite valid_mask_repeat_NaN. cbn [negb]. f_equal.
    induction n; cbn; congruence.
  - intros fs_array result i H Hi.
    unfold clasificar_fs_array in H.
    assert (H0 : nth_error (map (fun _ : fval => 0%Z) fs_array) i = Some 0%Z).
    { rewrite nth_error_map, Hi. reflexivity. }
    destruct (negb _) in H.
    + inversion H; subst. exact H0.
    + destruct (digitize_array _ _ _) as [ind|]; [|discriminate].
      cbn [bind] in H.
      destruct (mapM _ _) as [vals|]; [|discriminate].
      cbn [bind] in H. inversion H; subst.
      rewrite asignar_false; [exact H0|].
      rewrite nth_error_map, Hi. reflexivity.
Qed.

Lemma clasificar_fs_nodata_witness :
  clasificar_fs UMBRALES_AMENAZA NaN = OK 0%Z /\
  clasificar_fs_array UMBRALES_AMENAZA (repeat NaN 3) = OK (repeat 0%Z 3) /\
  nth_error [4%Z; 0%Z; 1%Z] 1 = Some 0%Z.
Proof.
  split; [apply (proj1 (clasificar_fs_nodata UMBRALES_AMENAZA))|].
  split; [apply (proj1 (proj2 (clasificar_fs_nodata UMBRALES_AMENAZA)))|].
  apply (proj2 (proj2 (clasificar_fs_nodata UMBRALES_AMENAZA))
           [Fin 1; NaN; Fin 3]); reflexivity.
Defined.

(** ** The three threshold evaluations *)

(** C2: the three places that turn FS into a class do not agree.  At
    FS = 1.15 the fallback of [ensure_haz_num] gives class 3 where the
    Classifier gives 4; at FS = 1.0 the raster reclassification gives class 5
    where the Classifier, scalar and array, gives 4. *)
Theorem umbrales_inconsistentes :
  map haz_num (filas (ensure_haz_num (tabla_de_fs [Fin (115 # 100)])))
    = [Some 3%Z] /\
  clasificar_fs UMBRALES_AMENAZA (Fin (115 # 100)) = OK 4%Z /\
  reclasificar_fs_a_haz [Fin 1] UMBRALES_FS = OK [5%Z] /\
  clasificar_fs UMBRALES_AMENAZA (Fin 1) = OK 4%Z /\
  clasificar_fs_array UMBRALES_AMENAZA [Fin 1] = OK [4%Z].
Proof. repeat split; reflexivity. Qed.

(** ** Statistics *)

Lemma filter_fs_contar (l : list fila) :
  length (filter (fun f => flt (FS_min f) (Fin 1)) l)
  = contar_menores_que_1 (map FS_min l).
Proof.
  induction l as [|f l IH]; [reflexivity|].
  cbn [filter map contar_menores_que_1].
  destruct (FS_min f) as [| |q|]; cbn [flt fle negb length]; try exact IH.
  - rewrite IH. reflexivity.
  - destruct (Qlt_le_dec q 1) as [H|H];
      destruct (Qle_bool 1 q) eqn:E; cbn [negb length].
    + apply Qle_bool_iff in E. exfalso. lra.
    + rewrite IH. reflexivity.
    + exact IH.
    + apply not_true_iff_false in E. rewrite Qle_bool_iff in E.
      contradiction.
Qed.

(** C9: on a table that has the FS_min column, the KPI of the statistics
    page and the critical points of the report both count the rows whose
    FS_min is strictly below 1.0; the collection [0.5, 0.9, 1.0, 2.0] has
    2 of them, and a point at exactly 1.0 is not critical. *)
Theorem criticos_cuenta (puntos : GeoDataFrame) :
  tiene_FS_min puntos = true ->
  criticos puntos = contar_menores_que_1 (map FS_min (filas puntos)) /\
  length (puntos_criticos puntos)
    = contar_menores_que_1 (map FS_min (filas puntos)) /\
  criticos (tabla_de_fs [Fin (5 # 10); Fin (9 # 10); Fin 1; Fin 2]) = 2%nat /\
  puntos_criticos (tabla_de_fs [Fin 1]) = [].
Proof.
  intros H. unfold criticos, puntos_criticos. rewrite H.
  rewrite filter_fs_contar. repeat split; reflexivity.
Qed.

Lemma criticos_cuenta_witness :
  criticos (tabla_de_fs [Fin (7 # 10); NaN; Fin 3]) = 1%nat /\
  length (puntos_criticos (tabla_de_fs [Fin (7 # 10); NaN; Fin 3])) = 1%nat /\
  criticos (tabla_de_fs [Fin (5 # 10); Fin (9 # 10); Fin 1; Fin 2]) = 2%nat /\
  puntos_criticos (tabla_de_fs [Fin 1]) = [].
Proof.
  apply (criticos_cuenta (tabla_de_fs [Fin (7 # 10); NaN; Fin 3])).
  reflexivity.
Defined.

(** ** IDW weights *)

Lemma epsilon_pos : 0 < epsilon.
Proof. reflexivity. Qed.

Lemma Qmax_epsilon_pos d : 0 < Qmax d epsilon.
Proof.
  apply Qlt_le_trans with epsilon; [apply epsilon_pos|].
  apply Q.le_max_r.
Qed.

Lemma peso_pos power d : 0 < peso power d.
Proof.
  unfold peso, Qdiv. rewrite Qmult_1_l.
  apply Qinv_lt_0_compat, Qpower_0_lt, Qmax_epsilon_pos.
Qed.

Lemma Qsum_pos (l : list Q) :
  l <> [] -> Forall (fun w => 0 < w) l -> 0 < Qsum l.
Proof.
  intros Hne H. induction H as [|w l Hw Hl IH]; [congruence|].
  cbn in *. destruct l as [|w' l'].
  - cbn. lra.
  - assert (0 < Qsum (w' :: l')) by (apply IH; congruence). lra.
Qed.

Lemma Qsum_map_div (l : list Q) (s : Q) :
  ~ s == 0 -> Qsum (map (fun w => w / s) l) == Qsum l / s.
Proof.
  intros Hs. induction l as [|w l IH]; cbn.
  - unfold Qdiv. ring.
  - rewrite IH. field. exact Hs.
Qed.

Lemma Qsum_pesos_pos power ds :
  ds <> [] -> 0 < Qsum (map (peso power) ds).
Proof.
  intros Hne. apply Qsum_pos.
  - destruct ds; [congruence|discriminate].
  - apply Forall_forall. intros w Hw. apply in_map_iff in Hw.
    destruct Hw as [d [<- _]]. apply peso_pos.
Qed.

Lemma pesos_normalizados_map power ds :
  pesos_normalizados power ds
  = map (fun w => w / Qsum (map (peso power) ds)) (map (peso power) ds).
Proof. unfold pesos_normalizados. rewrite map_map. reflexivity. Qed.

Lemma pesos_suman_uno power ds :
  ds <> [] -> Qsum (pesos_normalizados power ds) == 1.
Proof.
  intros Hne. rewrite pesos_normalizados_map.
  pose proof (Qsum_pesos_pos power ds Hne) as Hs.
  rewrite Qsum_map_div by lra. field. lra.
Qed.

Lemma pesos_positivos power ds :
  Forall (fun w => 0 < w) (pesos_normalizados power ds).
Proof.
  apply Forall_forall. intros w Hw.
  unfold pesos_normalizados in Hw. apply in_map_iff in Hw.
  destruct Hw as [d [<- Hd]].
  assert (Hs : 0 < Qsum (map (peso power) ds)).
  { apply Qsum_pesos_pos. destruct ds; [destruct Hd|discriminate]. }
  unfold Qdiv. apply Qmult_lt_0_compat.
  - apply peso_pos.
  - apply Qinv_lt_0_compat, Hs.
Qed.




Lemma tomar_total (valores : list fval) (indices : list nat) :
  (forall i, In i indices -> (i < length valores)%nat) ->
  exists vs, tomar valores indices = OK vs.
Proof.
  intros H. apply mapM_total. intros i Hi.
  destruct (indexar_nat valores i (H i Hi)) as [x [E _]]. eauto.
Qed.

Lemma tomar_Fin (vals : list Q) (indices : list nat) :
  (forall i, In i indices -> (i < length vals)%nat) ->
  exists us,
    tomar (map Fin vals) indices = OK (map Fin us) /\
    length us = length indices /\
    (forall u, In u us -> In u vals).
Proof.
  unfold tomar. induction indices as [|i l IH]; intros H.
  - exists []. cbn. repeat split. intros u [].
  - destruct IH as [us [E [L I]]]; [intros; apply H; right; assumption|].
    assert (Hi : (i < length vals)%nat) by (apply H; left; reflexivity).
    destruct (nth_error vals i) as [u|] eqn:En;
      [|apply nth_error_None in En; lia].
    exists (u :: us). cbn [mapM]. rewrite E.
    unfold indexar. destruct (Z.of_nat i <? 0)%Z eqn:Ez; [lia|].
    rewrite Ez, Nat2Z.id, nth_error_map, En. cbn.
    repeat split; [congruence|].
    intros u' [<-|Hu]; [eapply nth_error_In; eauto | apply I, Hu].
Qed.

Lemma fsum_mul_filas_Fin (ws us : list Q) :
  fsum (mul_filas ws (map Fin us)) = Fin (producto_punto ws us).
Proof.
  revert us. induction ws as [|w ws IH]; intros [|u us]; try reflexivity.
  cbn [map mul_filas fsum fmul]. rewrite IH. reflexivity.
Qed.

Lemma producto_punto_acotado (lo hi : Q) (ws us : list Q) :
  Forall (fun w => 0 < w) ws ->
  Forall (fun u => lo <= u <= hi) us ->
  length ws = length us ->
  lo * Qsum ws <= producto_punto ws us <= hi * Qsum ws.
Proof.
  intros Hw. revert us. induction Hw as [|w ws Hw0 Hws IH];
    intros [|u us] Hu L; try discriminate.
  - unfold producto_punto. cbn. lra.
  - inversion Hu; subst. cbn in L.
    destruct (IH us) as [IH1 IH2]; [assumption|lia|].
    unfold producto_punto in *. cbn. cbn in H1. nra.
Qed.

(** ** IDW interpolation *)

Section Interpolacion_props.

Variable distancia : punto -> punto -> Q.

Lemma insertar_In x y l :
  In y (insertar x l) <-> y = x \/ In y l.
Proof.
  induction l as [|z l IH]; cbn.
  - intuition.
  - destruct (Qle_bool (fst x) (fst z)); cbn; rewrite ?IH; intuition.
Qed.

Lemma ordenar_In y l : In y (ordenar l) <-> In y l.
Proof.
  induction l as [|x l IH]; cbn; [tauto|].
  rewrite insertar_In, IH. intuition.
Qed.

Lemma insertar_length x l : length (insertar x l) = S (length l).
Proof.
  induction l as [|z l IH]; cbn; [reflexivity|].
  destruct (Qle_bool _ _); cbn [length]; rewrite ?IH; reflexivity.
Qed.

Lemma ordenar_length l : length (ordenar l) = length l.
Proof.
  unfold ordenar. induction l as [|x l IH]; cbn; [reflexivity|].
  rewrite insertar_length. congruence.
Qed.

Lemma vecinos_length puntos c k :
  length (vecinos distancia puntos c k) = Nat.min k (length puntos).
Proof.
  unfold vecinos.
  rewrite length_firstn, ordenar_length, length_combine, length_map,
    length_seq. lia.
Qed.

Lemma vecinos_indice puntos c k di :
  In di (vecinos distancia puntos c k) -> (snd di < length puntos)%nat.
Proof.
  unfold vecinos. intros H. apply In_firstn in H.
  apply (proj1 (ordenar_In _ _)) in H. destruct di as [d i].
  apply in_combine_r in H. apply in_seq in H. cbn. lia.
Qed.

Lemma interpolar_filas valores power (nns : list (list (Q * nat))) :
  (vals <- mapM (tomar valores) (map (map snd) nns) ;;
   OK (map (fun wv => fsum (mul_filas (fst wv) (snd wv)))
           (combine
              (map (fun fila => map (fun w => w / Qsum fila) fila)
                 (map (map (fun d => 1 / d ^ Z.of_nat power))
                    (map (map (fun d => Qmax d epsilon))
                       (map (map fst) nns))))
              vals)))
  = mapM (fila_idw valores power) nns.
Proof.
  induction nns as [|nn nns IH]; [reflexivity|].
  cbn [map mapM]. rewrite <- IH. unfold fila_idw at 1.
  destruct (tomar valores (map snd nn)) as [vs|]; [|reflexivity].
  cbn [bind].
  destruct (mapM (tomar valores) (map (map snd) nns)) as [vals|];
    [|reflexivity].
  cbn [bind combine map fst snd]. do 2 f_equal.
  rewrite pesos_normalizados_map, !map_map. reflexivity.
Qed.

(** With two samples or more the call is one weighted average per query. *)
Lemma interpolar_idw_filas puntos consultas valores power :
  (2 <= length puntos)%nat ->
  interpolar_idw distancia puntos consultas valores power
  = mapM (fun c => fila_idw valores power
                     (vecinos distancia puntos c
                        (Nat.min 10 (length puntos))))
         consultas.
Proof.
  intros Hn. unfold interpolar_idw, query.
  destruct (Nat.min 10 (length puntos)) as [|[|k]] eqn:Ek; [lia|lia|].
  cbn [bind]. rewrite interpolar_filas.
  induction consultas as [|c cs IH]; [reflexivity|].
  cbn [map mapM]. rewrite IH. reflexivity.
Qed.

Lemma interpolar_idw_OK puntos consultas valores power zs :
  interpolar_idw distancia puntos consultas valores power = OK zs ->
  (2 <= length puntos)%nat.
Proof.
  destruct puntos as [|p [|p' ps]]; cbn [length]; intros H;
    [discriminate H | discriminate H | lia].
Qed.

Lemma vecinos_no_vacio puntos c :
  (2 <= length puntos)%nat ->
  map fst (vecinos distancia puntos c (Nat.min 10 (length puntos))) <> [].
Proof.
  intros Hn H0. apply (f_equal (@length _)) in H0.
  rewrite length_map, vecinos_length in H0. cbn [length] in H0. lia.
Qed.


(** C6: with a single sample the neighbour query is squeezed to one
    dimension and the row sum over axis 1 raises, whatever the query
    locations, the sample and the power. *)
Theorem interpolar_idw_una_muestra (p : punto) (consultas : list punto)
  (v : fval) (power : nat) :
  interpolar_idw distancia [p] consultas [v] power = Raise AxisError.
Proof. reflexivity. Qed.

(** The interpolated values stay within any bounds of the sample values. *)
Lemma interpolar_idw_entre (lo hi : Q) (puntos consultas : list punto)
  (vals : list Q) (power : nat) :
  (2 <= length puntos)%nat ->
  length vals = length puntos ->
  Forall (fun u => lo <= u <= hi) vals ->
  exists zs : list fval,
    interpolar_idw distancia puntos consultas (map Fin vals) power = OK zs /\
    length zs = length consultas /\
    forall z, In z zs -> exists q, z = Fin q /\ lo <= q <= hi.
Proof.
  intros Hn Hl Hb. rewrite interpolar_idw_filas by assumption.
  set (k := Nat.min 10 (length puntos)).
  assert (Hfila : forall c,
    exists q, fila_idw (map Fin vals) power (vecinos distancia puntos c k)
              = OK (Fin q) /\ lo <= q <= hi).
  { intros c. unfold fila_idw.
    set (nn := vecinos distancia puntos c k).
    destruct (tomar_Fin vals (map snd nn)) as [us [E [L I]]].
    { intros i Hi. apply in_map_iff in Hi. destruct Hi as [di [<- Hdi]].
      rewrite Hl. eapply vecinos_indice; eauto. }
    rewrite E. cbn [bind]. rewrite fsum_mul_filas_Fin.
    eexists. split; [reflexivity|].
    pose proof (pesos_suman_uno power (map fst nn)
                  (vecinos_no_vacio puntos c Hn)) as H1.
    destruct (producto_punto_acotado lo hi
                (pesos_normalizados power (map fst nn)) us) as [B1 B2].
    - apply pesos_positivos.
    - rewrite Forall_forall in Hb. apply Forall_forall. intros u Hu.
      apply Hb, I, Hu.
    - unfold pesos_normalizados. rewrite !length_map in *. congruence.
    - rewrite H1 in B1, B2. lra. }
  induction consultas as [|c cs IH].
  - exists []. cbn. repeat split. intros z [].
  - destruct IH as [zs [E [L B]]].
    destruct (Hfila c) as [q [Eq Bq]].
    exists (Fin q :: zs). cbn [mapM]. rewrite Eq, E. cbn.
    repeat split; [congruence|].
    intros z [<-|Hz]; [exists q; split; [reflexivity|exact Bq] | apply B, Hz].
Qed.


End Interpolacion_props.



(** ** The hazard raster *)

Lemma clase_raster_digitize (x : fval) :
  let d := digitize_mono 1 x (bins UMBRALES_FS) true in
  (if (d =? 5)%Z then 1
   else if (d =? 4)%Z then 2
   else if (d =? 3)%Z then 3
   else if (d =? 2)%Z then 4
   else if (d =? 1)%Z then 5
   else 0)%Z = clase_raster x.
Proof.
  destruct x as [| |q|]; try reflexivity.
  unfold digitize_mono, searchsorted, clase_raster.
  cbn -[Qle_bool].
  q_casos; cbn; try reflexivity; exfalso; lra.
Qed.

(** Under [UMBRALES_FS] the reclassification is [clase_raster] cell by
    cell. *)
Lemma reclasificar_por_defecto (l : list fval) :
  reclasificar_fs_a_haz l UMBRALES_FS = OK (map clase_raster l).
Proof.
  unfold reclasificar_fs_a_haz, digitize_array.
  change (monotonicity (bins UMBRALES_FS)) with 1%Z.
  cbn [Z.eqb bind]. f_equal.
  change (enumerate 1 (clases UMBRALES_FS))
    with [(1, 5); (2, 4); (3, 3); (4, 2); (5, 1)]%Z.
  induction l as [|x l IH]; [reflexivity|].
  cbn [fold_left map asignar_escalar fst snd] in IH |- *.
  f_equal; [|exact IH].
  rewrite <- clase_raster_digitize. cbv zeta.
  destruct (digitize_mono 1 x (bins UMBRALES_FS) true =? 5)%Z eqn:E5;
    [reflexivity|].
  destruct (digitize_mono 1 x (bins UMBRALES_FS) true =? 4)%Z eqn:E4;
    [reflexivity|].
  destruct (digitize_mono 1 x (bins UMBRALES_FS) true =? 3)%Z eqn:E3;
    [reflexivity|].
  destruct (digitize_mono 1 x (bins UMBRALES_FS) true =? 2)%Z eqn:E2;
    [reflexivity|].
  destruct (digitize_mono 1 x (bins UMBRALES_FS) true =? 1)%Z eqn:E1;
    reflexivity.
Qed.

Lemma asignar_seleccionar {A B} (p : A -> bool) (f : A -> B) (z : B)
  (l : list A) :
  asignar (map p l) (map (fun _ => z) l) (map f (seleccionar (map p l) l))
  = map (fun x => if p x then f x else z) l.
Proof.
  induction l as [|x l IH]; [reflexivity|].
  cbn [map seleccionar asignar]. destruct (p x); cbn [map]; rewrite IH;
    reflexivity.
Qed.

Lemma sin_validos {A B} (p : A -> bool) (f : A -> B) (z : B) (l : list A) :
  existsb (fun b => b) (map p l) = false ->
  map (fun _ => z) l = map (fun x => if p x then f x else z) l.
Proof.
  induction l as [|x l IH]; [reflexivity|].
  cbn [map existsb]. intros H. apply orb_false_iff in H. destruct H as [-> H].
  rewrite IH by exact H. reflexivity.
Qed.

Lemma enmascarar_nth (celdas : list celda) (zi : list fval) (i : nat) c :
  length zi = length celdas ->
  nth_error celdas i = Some c ->
  nth_error (asignar_escalar (map negb (map dentro celdas)) zi NaN) i
  = if dentro c then nth_error zi i else Some NaN.
Proof.
  revert zi i. induction celdas as [|c' cs IH]; intros zi i L H.
  - destruct i; discriminate.
  - destruct zi as [|z zi]; [discriminate|].
    destruct i as [|i]; cbn in H |- *.
    + inversion H; subst. destruct (dentro c); reflexivity.
    + apply IH; [cbn in L; lia | exact H].
Qed.

Lemma enmascarar_length (mask : list bool) (zi : list fval) :
  length (asignar_escalar mask zi NaN) = length zi.
Proof.
  revert zi. induction mask as [|m mask IH]; intros [|z zi]; cbn; auto.
Qed.

Section Raster_props.

Variable distancia : punto -> punto -> Q.

Lemma interpolar_idw_length puntos consultas valores power zs :
  interpolar_idw distancia puntos consultas valores power = OK zs ->
  length zs = length consultas.
Proof.
  intros E. pose proof (interpolar_idw_OK _ _ _ _ _ _ E) as Hn.
  rewrite interpolar_idw_filas in E by assumption.
  apply mapM_length in E. exact E.
Qed.

Lemma griddata_nearest_length puntos valores consultas zs :
  griddata_nearest distancia puntos valores consultas = OK zs ->
  length zs = length consultas.
Proof.
  unfold griddata_nearest. destruct puntos; [discriminate|].
  apply mapM_length.
Qed.

(** What every returned raster looks like: the classified grid is
    [clase_raster] of the continuous one, cell by cell, and the continuous
    grid is NaN wherever the mask says outside. *)
Lemma generar_raster_amenaza_celdas (puntos_gdf : GeoDataFrame)
  (celdas : list celda) (method : metodo) (r : raster) :
  generar_raster_amenaza distancia puntos_gdf celdas method = OK (Some r) ->
  zi_clasificado r = map clase_raster (zi_continuo r) /\
  length (zi_continuo r) = length celdas /\
  (forall i c, nth_error celdas i = Some c -> dentro c = false ->
               nth_error (zi_continuo r) i = Some NaN).
Proof.
  unfold generar_raster_amenaza. intros H.
  destruct (negb (tiene_FS_min puntos_gdf)); [discriminate|].
  destruct (negb (existsb _ _)); [discriminate|].
  match type of H with
  | bind ?interp _ = _ => destruct interp as [zi|] eqn:Ez; [|discriminate]
  end.
  cbn [bind] in H.
  assert (Lz : length zi = length celdas).
  { destruct method.
    - apply interpolar_idw_length in Ez. rewrite length_map in Ez. exact Ez.
    - apply griddata_nearest_length in Ez. rewrite length_map in Ez.
      exact Ez. }
  set (zc := asignar_escalar (map negb (map dentro celdas)) zi NaN) in *.
  assert (Hc : (if existsb (fun b => b) (map (fun z => negb (isnan z)) zc)
                then
                  r0 <- reclasificar_fs_a_haz
                          (seleccionar (map (fun z => negb (isnan z)) zc) zc)
                          UMBRALES_FS ;;
                  OK (asignar (map (fun z => negb (isnan z)) zc)
                              (map (fun _ => 0%Z) zc) r0)
                else OK (map (fun _ => 0%Z) zc))
               = OK (map clase_raster zc)).
  { assert (Hm : map (fun z => if negb (isnan z) then clase_raster z else 0%Z)
                     zc = map clase_raster zc).
    { apply map_ext. intros [| | |]; reflexivity. }
    destruct (existsb _ _) eqn:Ee.
    - rewrite reclasificar_por_defecto. cbn [bind].
      rewrite asignar_seleccionar, Hm. reflexivity.
    - rewrite (sin_validos _ clase_raster _ _ Ee), Hm. reflexivity. }
  rewrite Hc in H. cbn [bind] in H. inversion H; subst r; clear H.
  cbn [zi_continuo zi_clasificado].
  split; [reflexivity|]. split.
  - subst zc. rewrite enmascarar_length. exact Lz.
  - intros i c Hi Hd. subst zc.
    rewrite (enmascarar_nth celdas zi i c Lz Hi), Hd. reflexivity.
Qed.

(** Hence a nonzero class is only ever given to a cell whose continuous
    value is valid and which the mask reports inside the area. *)
Lemma generar_raster_amenaza_no_cero (puntos_gdf : GeoDataFrame)
  (celdas : list celda) (method : metodo) (r : raster) (i : nat) (k : Z) :
  generar_raster_amenaza distancia puntos_gdf celdas method = OK (Some r) ->
  nth_error (zi_clasificado r) i = Some k ->
  k <> 0%Z ->
  exists z c,
    nth_error (zi_continuo r) i = Some z /\ isnan z = false /\
    nth_error celdas i = Some c /\ dentro c = true.
Proof.
  intros H Hk Hk0.
  destruct (generar_raster_amenaza_celdas _ _ _ _ H) as [Hc [L Hout]].
  rewrite Hc, nth_error_map in Hk.
  destruct (nth_error (zi_continuo r) i) as [z|] eqn:Ez; [|discriminate].
  cbn in Hk. inversion Hk; subst k; clear Hk.
  assert (Hi : (i < length celdas)%nat).
  { rewrite <- L. apply nth_error_Some. congruence. }
  destruct (nth_error celdas i) as [c|] eqn:Ec;
    [|apply nth_error_None in Ec; lia].
  exists z, c. split; [reflexivity|].
  split; [destruct z; try reflexivity; contradiction Hk0; reflexivity|].
  split; [reflexivity|].
  destruct (dentro c) eqn:Ed; [reflexivity|].
  rewrite (Hout i c Ec Ed) in Ez. inversion Ez; subst z.
  contradiction Hk0. reflexivity.
Qed.

(** C4: two points with FS_min = -0.5 and 0.0 and one cell inside the
    area.  The interpolated value of the cell is a valid number, between
    -0.5 and 0, and the cell is inside, yet its class is 0. *)
Theorem generar_raster_amenaza_fs_no_positivo (c : punto) :
  exists z : Q,
    - (1 # 2) <= z <= 0 /\
    generar_raster_amenaza distancia (tabla_de_fs [Fin (- (1 # 2)); Fin 0])
      [{| xy := c; dentro := true |}] idw
    = OK (Some {| zi_continuo := [Fin z]; zi_clasificado := [0%Z] |}).
Proof.
  unfold generar_raster_amenaza.
  cbn -[interpolar_idw reclasificar_fs_a_haz].
  destruct (interpolar_idw_entre distancia (- (1 # 2)) 0
              [(inject_Z 0, 0); (inject_Z 1, 0)] [c]
              [- (1 # 2); 0] 2) as [zs [E [L B]]];
    [cbn; lia | reflexivity | repeat constructor; cbn; lra |].
  match goal with
  | |- context [interpolar_idw distancia ?p ?cs ?v ?n] =>
      change (interpolar_idw distancia p cs v n = OK zs) in E
  end.
  rewrite E. cbn [bind].
  destruct zs as [|z [|z' zs]]; try discriminate.
  destruct (B z (or_introl eq_refl)) as [q [-> Bq]].
  exists q. split; [exact Bq|].
  cbn [asignar_escalar asignar map negb isnan existsb orb seleccionar].
  rewrite reclasificar_por_defecto. cbn [bind asignar map].
  unfold clase_raster.
  assert (Hb : Qle_bool q 0 = true) by (apply Qle_bool_iff; lra).
  rewrite Hb. reflexivity.
Qed.

End Raster_props.

(** ** Voronoi zonation *)

Section Voronoi_props.

Variable geometria : Type.
Variable Polygon : list punto -> geometria.
Variable intersection : geometria -> geometria -> geometria.
Variable is_empty : geometria -> bool.
Variable buffer : geometria -> Q -> geometria.
Variable bounds : geometria -> Q * Q * Q * Q.
Variable Voronoi : list punto -> res voronoi.

Lemma polys_de_In (l : list (option (Zona.t geometria))) rec :
  In rec (polys_de l) -> In (Some rec) l.
Proof.
  induction l as [|[r|] l IH]; cbn; [tauto| |].
  - intros [->|H]; [left; reflexivity | right; apply IH, H].
  - intros H. right. apply IH, H.
Qed.

(** A record leaves the loop body only through its last line. *)
Lemma zona_de_Some vor puntos_gdf corredor_buffer point_idx rec :
  zona_de Polygon intersection is_empty vor puntos_gdf corredor_buffer
    point_idx = OK (Some rec) ->
  exists p,
    nth_error (filas puntos_gdf) point_idx = Some p /\
    celda_recortada Polygon intersection vor corredor_buffer point_idx
      (Zona.geometry rec) /\
    is_empty (Zona.geometry rec) = false /\
    haz_num p = Some (Zona.haz_num rec) /\
    Zona.FS_min rec
      = (if tiene_FS_min puntos_gdf then Some (FS_min p) else None) /\
    Zona.punto_id rec = ID p.
Proof.
  unfold zona_de. intros H.
  destruct (indexar (point_region vor) _) as [region_idx|] eqn:E1;
    [|discriminate].
  cbn [bind] in H.
  destruct (indexar (regions vor) region_idx) as [region|] eqn:E2;
    [|discriminate].
  cbn [bind] in H.
  destruct (_ || _); [discriminate|].
  destruct (mapM (indexar (vertices vor)) region) as [verts|] eqn:E3;
    [|discriminate].
  cbn [bind] in H.
  destruct (is_empty _) eqn:E4; [discriminate|].
  destruct (indexar (filas puntos_gdf) _) as [p|] eqn:E5; [|discriminate].
  cbn [bind] in H. unfold columna in H.
  destruct (tiene_haz_num puntos_gdf); [|discriminate].
  cbn [bind] in H.
  destruct (haz_num p) as [h|] eqn:E6; [|discriminate].
  cbn [bind] in H.
  destruct (tiene_ID puntos_gdf); [|discriminate].
  cbn [bind] in H. inversion H; subst rec; clear H. cbn.
  exists p. repeat split; try assumption.
  - apply indexar_nth in E5; [|lia]. rewrite Nat2Z.id in E5. exact E5.
  - exists region_idx, region, verts. repeat split; assumption.
Qed.

(** C7: every emitted record comes from an input point, whose index is
    below the number of real points: its geometry is that point's cell of
    the diagram clipped to the buffered corridor and is not empty, and its
    hazard class, FS_min (when the table has the column) and id are the
    point's. *)
Theorem crear_poligonos_voronoi_atributos (puntos_gdf : GeoDataFrame)
  (corredor : geometria) (buffer_dist : Q)
  (out : list (Zona.t geometria)) (rec : Zona.t geometria) :
  crear_poligonos_voronoi Polygon intersection is_empty buffer bounds
    Voronoi puntos_gdf corredor buffer_dist = OK out ->
  In rec out ->
  exists (point_idx : nat) (p : fila) (vor : voronoi) (bbox_pts : list punto),
    (point_idx < length (filas puntos_gdf))%nat /\
    nth_error (filas puntos_gdf) point_idx = Some p /\
    length bbox_pts = 4%nat /\
    Voronoi (map geom (filas puntos_gdf) ++ bbox_pts) = OK vor /\
    celda_recortada Polygon intersection vor (buffer corredor buffer_dist)
      point_idx (Zona.geometry rec) /\
    is_empty (Zona.geometry rec) = false /\
    haz_num p = Some (Zona.haz_num rec) /\
    Zona.FS_min rec
      = (if tiene_FS_min puntos_gdf then Some (FS_min p) else None) /\
    Zona.punto_id rec = ID p.
Proof.
  unfold crear_poligonos_voronoi. intros H Hin.
  destruct (bounds _) as [[[xmin ymin] xmax] ymax].
  destruct (Voronoi _) as [vor|] eqn:Ev; [|discriminate].
  cbn [bind] in H.
  destruct (mapM _ _) as [polys|] eqn:Em; [|discriminate].
  cbn [bind] in H. inversion H; subst out; clear H.
  apply polys_de_In in Hin.
  apply mapM_OK_Forall2 in Em.
  destruct (Forall2_In_r _ _ _ _ Em Hin) as [i [Hi Hz]].
  apply in_seq in Hi. rewrite length_map in Hi.
  destruct (zona_de_Some _ _ _ _ _ Hz) as [p [Hp Hrest]].
  exists i, p, vor. eexists. split; [lia|]. split; [exact Hp|].
  split; [|split; [exact Ev | exact Hrest]]. reflexivity.
Qed.

End Voronoi_props.

Lemma crear_poligonos_voronoi_atributos_witness :
  exists (point_idx : nat) (p : fila) (vor : voronoi) (bbox_pts : list punto),
    (point_idx < length (filas Ejemplo.puntos))%nat /\
    nth_error (filas Ejemplo.puntos) point_idx = Some p /\
    length bbox_pts = 4%nat /\
    Ejemplo.Voronoi (map geom (filas Ejemplo.puntos) ++ bbox_pts) = OK vor /\
    celda_recortada Ejemplo.Polygon Ejemplo.intersection vor
      (Ejemplo.buffer [] 100) point_idx (Zona.geometry Ejemplo.zona) /\
    Ejemplo.is_empty (Zona.geometry Ejemplo.zona) = false /\
    haz_num p = Some (Zona.haz_num Ejemplo.zona) /\
    Zona.FS_min Ejemplo.zona
      = (if tiene_FS_min Ejemplo.puntos then Some (FS_min p) else None) /\
    Zona.punto_id Ejemplo.zona = ID p.
Proof.
  apply (crear_poligonos_voronoi_atributos Ejemplo.geometria Ejemplo.Polygon
           Ejemplo.intersection Ejemplo.is_empty Ejemplo.buffer
           Ejemplo.bounds Ejemplo.Voronoi Ejemplo.puntos [] 100
           [Ejemplo.zona] Ejemplo.zona).
  - reflexivity.
  - left. reflexivity.
Defined.

(** * Further properties *)

(** ** The Classifier on every float and every scheme *)

Lemma clasificar_fs_NInf : clasificar_fs UMBRALES_AMENAZA NInf = OK 5%Z.
Proof. reflexivity. Qed.

Lemma clasificar_fs_PInf : clasificar_fs UMBRALES_AMENAZA PInf = OK 1%Z.
Proof. reflexivity. Qed.

Lemma clase_de_rango q : (1 <= clase_de q <= 5)%Z.
Proof. unfold clase_de. q_casos; lia. Qed.

(** X1: under the default scheme the scalar Classifier never raises and
    returns a class between 0 and 5, where 0 is returned for NaN only: the
    index clamp puts every FS below 1.0, negative numbers and minus infinity
    included, in class 5 and every FS from 2.0 on, plus infinity included,
    in class 1. *)
Theorem clasificar_fs_total (x : fval) :
  (exists c : Z,
     clasificar_fs UMBRALES_AMENAZA x = OK c /\
     (0 <= c <= 5)%Z /\ (c = 0%Z <-> x = NaN)) /\
  (forall q : Q, x = Fin q -> q < 1 ->
     clasificar_fs UMBRALES_AMENAZA x = OK 5%Z) /\
  (forall q : Q, x = Fin q -> 2 <= q ->
     clasificar_fs UMBRALES_AMENAZA x = OK 1%Z) /\
  (x = NInf -> clasificar_fs UMBRALES_AMENAZA x = OK 5%Z) /\
  (x = PInf -> clasificar_fs UMBRALES_AMENAZA x = OK 1%Z).
Proof.
  split; [|split; [|split; [|split]]].
  - destruct x as [| |q|].
    + exists 0%Z. repeat split; try lia; reflexivity.
    + exists 5%Z. repeat split; try lia; intros H; discriminate H.
    + exists (clase_de q). rewrite clasificar_fs_Fin.
      pose proof (clase_de_rango q). split; [reflexivity|].
      split; [lia|]. split; intros H0; [exfalso; lia | discriminate H0].
    + exists 1%Z. repeat split; try lia; intros H; discriminate H.
  - intros q -> Hq. rewrite clasificar_fs_Fin. f_equal.
    unfold clase_de. q_casos; try reflexivity; exfalso; lra.
  - intros q -> Hq. rewrite clasificar_fs_Fin. f_equal.
    unfold clase_de. q_casos; try reflexivity; exfalso; lra.
  - intros ->. reflexivity.
  - intros ->. reflexivity.
Qed.

Lemma clasificar_fs_total_witness :
  clasificar_fs UMBRALES_AMENAZA (Fin (- (3 # 1))) = OK 5%Z /\
  clasificar_fs UMBRALES_AMENAZA (Fin 7) = OK 1%Z.
Proof.
  split.
  - apply (proj1 (proj2 (clasificar_fs_total (Fin (- (3 # 1))))) (- (3 # 1)));
      reflexivity.
  - apply (proj1 (proj2 (proj2 (clasificar_fs_total (Fin 7)))) 7);
      [reflexivity | discriminate].
Defined.

Lemma indexar_rango {A} (a : list A) (i : Z) :
  (0 <= i < Z.of_nat (length a))%Z ->
  exists x, indexar a i = OK x /\ In x a.
Proof.
  intros H. replace i with (Z.of_nat (Z.to_nat i)) by lia.
  apply indexar_nat. lia.
Qed.

Lemma indexar_vacio {A} (i : Z) : indexar (@nil A) i = Raise IndexError.
Proof.
  unfold indexar. cbn [length Z.of_nat].
  destruct (i <? 0)%Z eqn:E.
  - replace (i + 0)%Z with i by lia. rewrite E. reflexivity.
  - rewrite E. destruct (Z.to_nat i); reflexivity.
Qed.

(** X2: for a number (not NaN) and any scheme, the scalar Classifier raises
    ValueError exactly when the bin edges are not monotonic, IndexError
    exactly when they are and the class list is empty, and otherwise returns
    one of the scheme's classes. *)
Theorem clasificar_fs_errores (U : umbrales) (x : fval) :
  isnan x = false ->
  (monotonicity (bins U) = 0%Z ->
     clasificar_fs U x = Raise ValueError) /\
  (monotonicity (bins U) <> 0%Z -> clases U = [] ->
     clasificar_fs U x = Raise IndexError) /\
  (monotonicity (bins U) <> 0%Z -> clases U <> [] ->
     exists c : Z, clasificar_fs U x = OK c /\ In c (clases U)).
Proof.
  intros Hx. unfold clasificar_fs, digitize. rewrite Hx.
  split; [|split].
  - intros ->. reflexivity.
  - intros Hm Hc. apply Z.eqb_neq in Hm. rewrite Hm, Hc. cbn [bind].
    apply indexar_vacio.
  - intros Hm Hc. apply Z.eqb_neq in Hm. rewrite Hm. cbn [bind].
    apply indexar_rango.
    destruct (clases U) as [|c0 cs]; [congruence|]. cbn [length]. lia.
Qed.

Lemma clasificar_fs_errores_witness :
  exists c : Z,
    clasificar_fs UMBRALES_AMENAZA (Fin (13 # 10)) = OK c /\
    In c (clases UMBRALES_AMENAZA).
Proof.
  apply (proj2 (proj2 (clasificar_fs_errores UMBRALES_AMENAZA (Fin (13 # 10))
                         eq_refl))).
  - discriminate.
  - discriminate.
Defined.

Lemma mapM_map_OK {A B C} (f : B -> res C) (g : A -> B) (h : A -> C)
  (l : list A) :
  (forall x, In x l -> f (g x) = OK (h x)) ->
  mapM f (map g l) = OK (map h l).
Proof.
  induction l as [|a l IH]; intros H; [reflexivity|].
  cbn [map mapM]. rewrite (H a (or_introl eq_refl)). cbn [bind].
  rewrite IH; [reflexivity|]. intros x Hx. apply H. right. exact Hx.
Qed.

Lemma indexar_nth_default (a : list Z) (i : Z) :
  (0 <= i < Z.of_nat (length a))%Z ->
  indexar a i = OK (nth (Z.to_nat i) a 0%Z) /\ In (nth (Z.to_nat i) a 0%Z) a.
Proof.
  intros H. unfold indexar.
  destruct (i <? 0)%Z eqn:E; [lia|]. rewrite E.
  assert (Hl : (Z.to_nat i < length a)%nat) by lia.
  rewrite (nth_error_nth' a 0%Z Hl). split; [reflexivity|].
  apply nth_In, Hl.
Qed.

Lemma seleccionar_In {A} (mask : list bool) (l : list A) (x : A) :
  In x (seleccionar mask l) -> In x l.
Proof.
  revert l. induction mask as [|m mask IH]; intros l H.
  - destruct H.
  - destruct l as [|a l]; [destruct H|].
    cbn [seleccionar] in H. destruct m.
    + destruct H as [->|H]; [left; reflexivity | right; apply IH, H].
    + right. apply IH, H.
Qed.

(** The class the array path stores for a valid value. *)
Lemma clasificar_fs_array_forma (U : umbrales) (fs_array : list fval) :
  monotonicity (bins U) <> 0%Z ->
  clases U <> [] ->
  clasificar_fs_array U fs_array
  = OK (map (fun x =>
               if fneb x (Fin 0) && negb (isnan x)
               then uint8 (nth (Z.to_nat
                                  (Z.max 0
                                     (Z.min
                                        (digitize_mono (monotonicity (bins U))
                                           x (bins U) false - 1)
                                        (Z.of_nat (length (clases U)) - 1))))
                             (clases U) 0%Z)
               else 0%Z) fs_array).
Proof.
  intros Hm Hc. unfold clasificar_fs_array, digitize_array.
  apply Z.eqb_neq in Hm. rewrite Hm.
  set (p := fun x => fneb x (Fin 0) && negb (isnan x)).
  set (n := Z.of_nat (length (clases U))).
  assert (Hn : (1 <= n)%Z).
  { subst n. destruct (clases U); [congruence | cbn [length]; lia]. }
  set (h := fun x =>
              nth (Z.to_nat
                     (Z.max 0
                        (Z.min
                           (digitize_mono (monotonicity (bins U))
                              x (bins U) false - 1) (n - 1))))
                  (clases U) 0%Z).
  destruct (existsb (fun b => b) (map p fs_array)) eqn:Ee; cbn [negb].
  - cbn [bind]. rewrite !map_map.
    rewrite (mapM_map_OK (indexar (clases U)) _ h).
    + cbn [bind]. rewrite map_map.
      rewrite (asignar_seleccionar p (fun x => uint8 (h x)) 0%Z fs_array).
      reflexivity.
    + intros x _. subst h. cbv beta.
      replace (Z.min (Z.max (digitize_mono (monotonicity (bins U)) x
                               (bins U) false - 1) 0) (n - 1))
        with (Z.max 0 (Z.min (digitize_mono (monotonicity (bins U)) x
                                (bins U) false - 1) (n - 1))) by lia.
      apply indexar_nth_default. subst n. lia.
  - f_equal. apply (sin_validos p (fun x => uint8 (h x)) 0%Z fs_array Ee).
Qed.

(** X3: for a scheme with monotonic bins and a non-empty class list whose
    values fit in a uint8, the array Classifier never raises, keeps the
    length of the array, leaves 0 at every NaN or zero cell, and at every
    other cell stores exactly what the scalar Classifier returns for that
    value. *)
Theorem clasificar_fs_array_por_celda (U : umbrales) (fs_array : list fval) :
  monotonicity (bins U) <> 0%Z ->
  clases U <> [] ->
  Forall (fun c => (0 <= c < 256)%Z) (clases U) ->
  exists result : list Z,
    clasificar_fs_array U fs_array = OK result /\
    length result = length fs_array /\
    forall (i : nat) (x : fval),
      nth_error fs_array i = Some x ->
      (es_nodata x = true -> nth_error result i = Some 0%Z) /\
      (es_nodata x = false ->
         exists c : Z, clasificar_fs U x = OK c /\
                       nth_error result i = Some c).
Proof.
  intros Hm Hc Hu. rewrite (clasificar_fs_array_forma U fs_array Hm Hc).
  eexists. split; [reflexivity|]. split; [apply length_map|].
  intros i x Hi. rewrite nth_error_map, Hi. cbn [option_map].
  unfold es_nodata, fneb. split.
  - intros Hn. apply orb_true_iff in Hn. destruct Hn as [->| ->].
    + rewrite andb_false_r. reflexivity.
    + reflexivity.
  - intros Hn. apply orb_false_iff in Hn. destruct Hn as [Hn1 Hn2].
    rewrite Hn1, Hn2. cbn [negb andb].
    set (n := Z.of_nat (length (clases U))).
    assert (Hn : (1 <= n)%Z).
    { subst n. destruct (clases U); [congruence | cbn [length]; lia]. }
    destruct (indexar_nth_default (clases U)
                (Z.max 0 (Z.min (digitize_mono (monotonicity (bins U)) x
                                   (bins U) false - 1) (n - 1))))
      as [E I]; [subst n; lia|].
    eexists. split.
    + unfold clasificar_fs, digitize. rewrite Hn1.
      apply Z.eqb_neq in Hm. rewrite Hm. cbn [bind]. exact E.
    + f_equal. apply uint8_id. rewrite Forall_forall in Hu. apply Hu, I.
Qed.

Lemma clasificar_fs_array_por_celda_witness :
  exists result : list Z,
    clasificar_fs_array UMBRALES_AMENAZA [Fin (13 # 10); NaN; Fin 0] = OK result /\
    length result = 3%nat /\
    forall (i : nat) (x : fval),
      nth_error [Fin (13 # 10); NaN; Fin 0] i = Some x ->
      (es_nodata x = true -> nth_error result i = Some 0%Z) /\
      (es_nodata x = false ->
         exists c : Z, clasificar_fs UMBRALES_AMENAZA x = OK c /\
                       nth_error result i = Some c).
Proof.
  apply (clasificar_fs_array_por_celda UMBRALES_AMENAZA
           [Fin (13 # 10); NaN; Fin 0]).
  - discriminate.
  - discriminate.
  - repeat constructor; cbn; lia.
Defined.

(** ** The raster reclassification and the other threshold tables *)

(** X4: under [UMBRALES_FS] the raster reclassification never raises and
    keeps the length; its bins are closed on the right, every class is
    between 0 and 5, and the class is 0 exactly for NaN, minus infinity and
    the numbers at or below the first edge 0. *)
Theorem reclasificar_fs_a_haz_por_celda (fs_continuo : list fval) :
  exists r : list Z,
    reclasificar_fs_a_haz fs_continuo UMBRALES_FS = OK r /\
    length r = length fs_continuo /\
    Forall (fun c => (0 <= c <= 5)%Z) r /\
    forall (i : nat) (x : fval),
      nth_error fs_continuo i = Some x ->
      exists c : Z,
        nth_error r i = Some c /\
        (c = 0%Z <->
           x = NaN \/ x = NInf \/ exists q, x = Fin q /\ q <= 0) /\
        (forall q, x = Fin q -> 0 < q -> q <= 1 -> c = 5%Z) /\
        (forall q, x = Fin q -> 1 < q -> q <= 12 # 10 -> c = 4%Z) /\
        (forall q, x = Fin q -> 12 # 10 < q -> q <= 15 # 10 -> c = 3%Z) /\
        (forall q, x = Fin q -> 15 # 10 < q -> q <= 2 -> c = 2%Z) /\
        (forall q, x = Fin q -> 2 < q -> c = 1%Z).
Proof.
  exists (map clase_raster fs_continuo).
  split; [apply reclasificar_por_defecto|].
  split; [apply length_map|]. split.
  - apply Forall_forall. intros c Hc. apply in_map_iff in Hc.
    destruct Hc as [x [<- _]]. destruct x as [| |q|]; cbn; try lia.
    q_casos; lia.
  - intros i x Hi. rewrite nth_error_map, Hi. cbn [option_map].
    eexists. split; [reflexivity|]. split; [|repeat split].
    + destruct x as [| |q|]; cbn [clase_raster].
      * split; [intros _; left; reflexivity | reflexivity].
      * split; [intros _; right; left; reflexivity | reflexivity].
      * split.
        -- intros H. right. right. exists q. split; [reflexivity|].
           revert H. q_casos; intros H; try discriminate H. assumption.
        -- intros [H|[H|[q' [H Hq]]]]; try discriminate H.
           injection H as <-. apply Qle_bool_iff in Hq. rewrite Hq.
           reflexivity.
      * split; [intros H; discriminate H|].
        intros [H|[H|[q' [H _]]]]; discriminate H.
    + intros q -> H1 H2. cbn. q_casos; try reflexivity; exfalso; lra.
    + intros q -> H1 H2. cbn. q_casos; try reflexivity; exfalso; lra.
    + intros q -> H1 H2. cbn. q_casos; try reflexivity; exfalso; lra.
    + intros q -> H1 H2. cbn. q_casos; try reflexivity; exfalso; lra.
    + intros q -> H1. cbn. q_casos; try reflexivity; exfalso; lra.
Qed.

(** X5: the raster reclassification and the Classifier give a positive FS
    the same class unless FS is one of the edges 1.0, 1.2, 1.5, 2.0; at
    each of these four edges the raster class is the Classifier's class
    plus one. *)
Theorem raster_y_clasificador (q : Q) :
  0 < q ->
  exists c : Z,
    clasificar_fs UMBRALES_AMENAZA (Fin q) = OK c /\
    (~ q == 1 -> ~ q == 12 # 10 -> ~ q == 15 # 10 -> ~ q == 2 ->
       reclasificar_fs_a_haz [Fin q] UMBRALES_FS = OK [c]) /\
    (q == 1 \/ q == 12 # 10 \/ q == 15 # 10 \/ q == 2 ->
       reclasificar_fs_a_haz [Fin q] UMBRALES_FS = OK [(c + 1)%Z]).
Proof.
  intros Hq. exists (clase_de q). rewrite clasificar_fs_Fin.
  split; [reflexivity|]. rewrite reclasificar_por_defecto.
  cbn [map clase_raster]. unfold clase_de. split.
  - intros H1 H2 H3 H4. do 2 f_equal.
    q_casos; try reflexivity; exfalso; lra.
  - intros H. do 2 f_equal.
    q_casos; try reflexivity; exfalso; lra.
Qed.

Lemma raster_y_clasificador_witness :
  exists c : Z,
    clasificar_fs UMBRALES_AMENAZA (Fin (15 # 10)) = OK c /\
    (~ 15 # 10 == 1 -> ~ 15 # 10 == 12 # 10 -> ~ 15 # 10 == 15 # 10 ->
     ~ 15 # 10 == 2 ->
       reclasificar_fs_a_haz [Fin (15 # 10)] UMBRALES_FS = OK [c]) /\
    (15 # 10 == 1 \/ 15 # 10 == 12 # 10 \/ 15 # 10 == 15 # 10 \/ 15 # 10 == 2 ->
       reclasificar_fs_a_haz [Fin (15 # 10)] UMBRALES_FS = OK [(c + 1)%Z]).
Proof.
  apply (raster_y_clasificador (15 # 10)). reflexivity.
Defined.

(** X6: for every finite FS the fallback thresholds of [ensure_haz_num]
    give a class that is the Classifier's class or one below it, never
    above; the two differ exactly on [1.1, 1.2) and [1.3, 2.0), and both
    give class 5 exactly when FS is below 1.0. *)
Theorem fs_to_h_y_clasificador (q : Q) :
  exists h c : Z,
    fs_to_h (Fin q) = Some h /\
    clasificar_fs UMBRALES_AMENAZA (Fin q) = OK c /\
    (h <= c <= h + 1)%Z /\
    (h <> c <-> (11 # 10 <= q /\ q < 12 # 10) \/ (13 # 10 <= q /\ q < 2)) /\
    (h = 5%Z <-> q < 1) /\
    (c = 5%Z <-> q < 1).
Proof.
  rewrite clasificar_fs_Fin. unfold fs_to_h, clase_de.
  cbn [isnan fle].
  q_casos; eexists; eexists; (split; [reflexivity|]); (split; [reflexivity|]);
    repeat split; try lia; try lra; try (intros; exfalso; lia);
    try (intros; exfalso; lra); try (intros _; lra);
    try (intros [[? ?]|[? ?]]; exfalso; lra);
    try (intros _; left; split; lra); try (intros _; right; split; lra).
Qed.

(** ** Point preparation *)

Lemma ensure_fs_min_tiene_haz_num g :
  tiene_haz_num (ensure_fs_min g) = tiene_haz_num g.
Proof.
  unfold ensure_fs_min. destruct (tiene_FS_min g); [reflexivity|].
  destruct (columnas_FS g =? 0)%nat; reflexivity.
Qed.

Lemma ensure_fs_min_sin_columna g :
  tiene_FS_min (ensure_fs_min g) = false -> ensure_fs_min g = g.
Proof.
  unfold ensure_fs_min. destruct (tiene_FS_min g); [reflexivity|].
  destruct (columnas_FS g =? 0)%nat; [reflexivity|]. intros H. discriminate H.
Qed.

Lemma ensure_haz_num_resultado g :
  tiene_haz_num (ensure_haz_num g) = true \/ ensure_haz_num g = g.
Proof.
  unfold ensure_haz_num.
  destruct (tiene_haz_num g) eqn:Eh; [right; reflexivity|]. cbv zeta.
  destruct (tiene_CLASIFICACION g).
  - left. destruct (negb _ || _); [|reflexivity].
    destruct (tiene_FS_min (ensure_fs_min _)); [reflexivity|].
    rewrite ensure_fs_min_tiene_haz_num. reflexivity.
  - rewrite Eh. cbn [negb orb].
    destruct (tiene_FS_min (ensure_fs_min g)) eqn:Ef; [left; reflexivity|].
    right. apply ensure_fs_min_sin_columna, Ef.
Qed.

(** X7: [ensure_haz_num] is idempotent, and a table that already has the
    haz_num column is returned as it is. *)
Theorem ensure_haz_num_idempotente (gdf : GeoDataFrame) :
  ensure_haz_num (ensure_haz_num gdf) = ensure_haz_num gdf /\
  (tiene_haz_num gdf = true -> ensure_haz_num gdf = gdf).
Proof.
  split.
  - destruct (ensure_haz_num_resultado gdf) as [H|H].
    + unfold ensure_haz_num at 1. rewrite H. reflexivity.
    + rewrite H. exact H.
  - intros H. unfold ensure_haz_num. rewrite H. reflexivity.
Qed.




Lemma fle_refl x : isnan x = false -> fle x x = true.
Proof.
  destruct x as [| |q|]; intros H; try discriminate H; try reflexivity.
  cbn. apply Qle_bool_iff. apply Qle_refl.
Qed.

Lemma fle_trans x y z : fle x y = true -> fle y z = true -> fle x z = true.
Proof.
  destruct x as [| |a|], y as [| |b|], z as [| |c|]; cbn;
    intros H1 H2; try discriminate; try reflexivity.
  apply Qle_bool_iff in H1. apply Qle_bool_iff in H2.
  apply Qle_bool_iff. eapply Qle_trans; eauto.
Qed.

Lemma fle_total x y :
  isnan x = false -> isnan y = false -> fle x y = false -> fle y x = true.
Proof.
  destruct x as [| |a|], y as [| |b|]; cbn; intros Hx Hy H;
    try discriminate; try reflexivity.
  apply Qle_bool_iff. apply not_true_iff_false in H.
  rewrite Qle_bool_iff in H. lra.
Qed.

Lemma fold_fmin_minimo (l : list fval) (x : fval) :
  isnan x = false ->
  Forall (fun y => isnan y = false) l ->
  let r := fold_left fmin l x in
  In r (x :: l) /\ isnan r = false /\
  forall y, In y (x :: l) -> fle r y = true.
Proof.
  revert x. induction l as [|y l IH]; intros x Hx Hl; cbn [fold_left].
  - split; [left; reflexivity|]. split; [exact Hx|].
    intros y [<-|[]]. apply fle_refl, Hx.
  - inversion Hl as [|? ? Hy Hl']; subst.
    assert (Hm : (fmin x y = x \/ fmin x y = y) /\
                 fle (fmin x y) x = true /\ fle (fmin x y) y = true).
    { unfold fmin. destruct (fle y x) eqn:E.
      - split; [right; reflexivity|]. split; [exact E|apply fle_refl, Hy].
      - split; [left; reflexivity|]. split; [apply fle_refl, Hx|].
        apply fle_total; assumption. }
    destruct Hm as [Hm [Hmx Hmy]].
    assert (Hmn : isnan (fmin x y) = false)
      by (destruct Hm as [-> | ->]; assumption).
    destruct (IH (fmin x y) Hmn Hl') as [I [N B]].
    split; [|split; [exact N|]].
    + destruct I as [I|I].
      * rewrite <- I. destruct Hm as [-> | ->];
          [left; reflexivity | right; left; reflexivity].
      * right. right. exact I.
    + intros z [<-|[<-|Hz]].
      * eapply fle_trans; [apply B; left; reflexivity | exact Hmx].
      * eapply fle_trans; [apply B; left; reflexivity | exact Hmy].
      * apply B. right. exact Hz.
Qed.

Lemma min_skipna_minimo (l : list fval) :
  (min_skipna l = NaN <-> forall x, In x l -> x = NaN) /\
  (min_skipna l <> NaN -> In (min_skipna l) l) /\
  (forall x, In x l -> isnan x = false -> fle (min_skipna l) x = true).
Proof.
  unfold min_skipna.
  assert (Hf : Forall (fun y => isnan y = false)
                 (filter (fun x => negb (isnan x)) l)).
  { apply Forall_forall. intros y Hy. apply filter_In in Hy.
    destruct Hy as [_ Hy]. apply negb_true_iff in Hy. exact Hy. }
  destruct (filter (fun x => negb (isnan x)) l) as [|x0 l'] eqn:Ef.
  - assert (Hall : forall x, In x l -> x = NaN).
    { intros x Hx. destruct x; try reflexivity;
        (assert (Hin : In _ (filter (fun x => negb (isnan x)) l))
           by (apply filter_In; split; [exact Hx | reflexivity]);
         rewrite Ef in Hin; destruct Hin). }
    split; [split; [intros _; exact Hall | reflexivity]|].
    split; [intros H; congruence|].
    intros x Hx Hn. rewrite (Hall x Hx) in Hn. discriminate Hn.
  - inversion Hf as [|? ? Hx0 Hl']; subst.
    destruct (fold_fmin_minimo l' x0 Hx0 Hl') as [I [N B]].
    assert (Hsub : forall y, In y (x0 :: l') -> In y l).
    { intros y Hy. rewrite <- Ef in Hy. apply filter_In in Hy. tauto. }
    split; [split|split].
    + intros H. rewrite H in N. discriminate N.
    + intros H. specialize (H x0 (Hsub x0 (or_introl eq_refl))).
      rewrite H in Hx0. discriminate Hx0.
    + intros _. apply Hsub, I.
    + intros x Hx Hn. apply B. rewrite <- Ef. apply filter_In.
      split; [exact Hx|]. rewrite Hn. reflexivity.
Qed.

(** X9: when FS_min is missing and there are other FS_* columns,
    [ensure_fs_min] adds the column and keeps the rows; each FS_min is NaN
    exactly when every FS_* value of the row is NaN, and is otherwise one of
    the row's FS_* values and not above any of its valid ones.  A table
    with FS_min, or without any FS_* column, is returned as it is. *)
Theorem ensure_fs_min_minimo (gdf : GeoDataFrame) :
  (tiene_FS_min gdf = true \/ columnas_FS gdf = 0%nat ->
     ensure_fs_min gdf = gdf) /\
  (tiene_FS_min gdf = false -> columnas_FS gdf <> 0%nat ->
     tiene_FS_min (ensure_fs_min gdf) = true /\
     Forall2
       (fun f f' =>
          geom f' = geom f /\ ID f' = ID f /\ haz_num f' = haz_num f /\
          (FS_min f' = NaN <-> forall x, In x (FS_cols f) -> x = NaN) /\
          (FS_min f' <> NaN -> In (FS_min f') (FS_cols f)) /\
          (forall x, In x (FS_cols f) -> isnan x = false ->
                     fle (FS_min f') x = true))
       (filas gdf) (filas (ensure_fs_min gdf))).
Proof.
  split.
  - unfold ensure_fs_min. intros [H|H].
    + rewrite H. reflexivity.
    + rewrite H. destruct (tiene_FS_min gdf); reflexivity.
  - intros Hf Hc. unfold ensure_fs_min. rewrite Hf.
    apply Nat.eqb_neq in Hc. rewrite Hc. cbn [tiene_FS_min filas].
    split; [reflexivity|].
    induction (filas gdf) as [|f l IH]; cbn [map]; constructor; [|exact IH].
    cbn [geom ID haz_num FS_min].
    destruct (min_skipna_minimo (FS_cols f)) as [H1 [H2 H3]].
    repeat split; try assumption; apply H1.
Qed.

Lemma ensure_fs_min_minimo_witness :
  tiene_FS_min
    (ensure_fs_min
       {| tiene_ID := true; tiene_FS_min := false; tiene_haz_num := false;
          tiene_CLASIFICACION := false; columnas_FS := 2;
          filas := [ {| geom := (0, 0); ID := 1%Z; FS_min := NaN;
                        haz_num := None; CLASIFICACION := EmptyString;
                        FS_cols := [Fin (13 # 10); NaN] |} ] |}) = true.
Proof.
  apply (proj2 (ensure_fs_min_minimo
       {| tiene_ID := true; tiene_FS_min := false; tiene_haz_num := false;
          tiene_CLASIFICACION := false; columnas_FS := 2;
          filas := [ {| geom := (0, 0); ID := 1%Z; FS_min := NaN;
                        haz_num := None; CLASIFICACION := EmptyString;
                        FS_cols := [Fin (13 # 10); NaN] |} ] |})).
  - reflexivity.
  - discriminate.
Defined.

(** ** Voronoi zonation: nothing is dropped unexpectedly *)




Section Voronoi_completo.

Variable geometria : Type.
Variable Polygon : list punto -> geometria.
Variable intersection : geometria -> geometria -> geometria.
Variable is_empty : geometria -> bool.
Variable buffer : geometria -> Q -> geometria.
Variable bounds : geometria -> Q * Q * Q * Q.
Variable Voronoi : list punto -> res voronoi.




End Voronoi_completo.


(** ** The hazard raster: outcomes and cells *)

Lemma sin_validos_contar (l : list fval) :
  existsb (fun b => b) (map (fun v => negb (isnan v)) l) = false <->
  contar_validos l = 0%nat.
Proof.
  unfold contar_validos. induction l as [|x l IH]; cbn [map existsb filter].
  - split; reflexivity.
  - destruct (negb (isnan x)); cbn [orb length].
    + split; intros H; discriminate H.
    + exact IH.
Qed.

Lemma seleccionar_length {A B} (p : A -> bool) (g : A -> B) (l : list A) :
  length (seleccionar (map p l) (map g l)) = length (filter p l).
Proof.
  induction l as [|x l IH]; [reflexivity|].
  cbn [map seleccionar filter]. destruct (p x); cbn [length]; rewrite IH;
    reflexivity.
Qed.

Lemma contar_validos_filas (l : list fila) :
  contar_validos (map FS_min l)
  = length (filter (fun f => negb (isnan (FS_min f))) l).
Proof.
  unfold contar_validos. induction l as [|f l IH]; [reflexivity|].
  cbn [map filter]. destruct (negb (isnan (FS_min f))); cbn [length];
    rewrite IH; reflexivity.
Qed.

Lemma seleccionar_map {A B} (p : A -> bool) (g : A -> B) (l : list A) :
  seleccionar (map p l) (map g l) = map g (filter p l).
Proof.
  induction l as [|x l IH]; [reflexivity|].
  cbn [map seleccionar filter]. destruct (p x); cbn [map]; rewrite IH;
    reflexivity.
Qed.

Section Raster_resultados.

Variable distancia : punto -> punto -> Q.

Lemma interpolar_idw_existe puntos consultas valores power :
  (2 <= length puntos)%nat ->
  length valores = length puntos ->
  exists zs, interpolar_idw distancia puntos consultas valores power = OK zs.
Proof.
  intros Hn Hl. rewrite interpolar_idw_filas by assumption.
  apply mapM_total. intros c _. unfold fila_idw.
  destruct (tomar_total valores
              (map snd (vecinos distancia puntos c
                          (Nat.min 10 (length puntos))))) as [vs ->].
  - intros i Hi. apply in_map_iff in Hi. destruct Hi as [di [<- Hdi]].
    rewrite Hl. eapply vecinos_indice; eauto.
  - eexists. reflexivity.
Qed.

Lemma vecino_mas_cercano puntos c :
  puntos <> [] ->
  (snd (hd (0%Q, O) (vecinos distancia puntos c 1)) < length puntos)%nat.
Proof.
  intros Hne. pose proof (vecinos_length distancia puntos c 1) as L.
  destruct (vecinos distancia puntos c 1) as [|di l] eqn:E.
  - destruct puntos; [congruence | cbn in L; discriminate L].
  - cbn [hd]. apply (vecinos_indice distancia puntos c 1). rewrite E.
    left. reflexivity.
Qed.

Lemma griddata_nearest_existe puntos valores consultas :
  puntos <> [] ->
  length valores = length puntos ->
  exists zs,
    griddata_nearest distancia puntos valores consultas = OK zs /\
    forall z, In z zs -> In z valores.
Proof.
  intros Hne Hl. unfold griddata_nearest.
  destruct puntos as [|p0 ps] eqn:Ep; [congruence|]. rewrite <- Ep in *.
  assert (Hne' : puntos <> []) by (rewrite Ep; discriminate).
  clear Ep. induction consultas as [|c cs IH].
  - exists []. split; [reflexivity | intros z []].
  - destruct IH as [zs [E I]].
    destruct (indexar_nat valores
                (snd (hd (0%Q, O) (vecinos distancia puntos c 1))))
      as [z [Ez Iz]].
    { rewrite Hl. apply vecino_mas_cercano, Hne'. }
    exists (z :: zs). cbn [mapM]. rewrite Ez, E. cbn [bind].
    split; [reflexivity|].
    intros z' [<-|Hz']; [exact Iz | apply I, Hz'].
Qed.

(** Once the interpolation has returned, the rest of the function does. *)
Lemma generar_raster_tras_interpolar (zi : list fval) (celdas : list celda) :
  exists r,
    (let mask := map dentro celdas in
     let zi_continuo := asignar_escalar (map negb mask) zi NaN in
     let mask_validos_raster := map (fun z => negb (isnan z)) zi_continuo in
     let zi_clasificado := map (fun _ : fval => 0%Z) zi_continuo in
     zi_clasificado <-
       (if existsb (fun b => b) mask_validos_raster
        then
          r <- reclasificar_fs_a_haz
                 (seleccionar mask_validos_raster zi_continuo) UMBRALES_FS ;;
          OK (asignar mask_validos_raster zi_clasificado r)
        else OK zi_clasificado) ;;
     OK (Some {| zi_continuo := zi_continuo;
                 zi_clasificado := zi_clasificado |}))
    = OK (Some r).
Proof.
  cbv zeta. destruct (existsb _ _).
  - rewrite reclasificar_por_defecto. cbn [bind]. eexists. reflexivity.
  - cbn [bind]. eexists. reflexivity.
Qed.

(** X11: what [generar_raster_amenaza] does, by the number of valid
    (non-NaN) FS_min values.  Without the column or without a valid value it
    returns the triple of None for either method; with exactly one valid
    value the IDW method raises AxisError while the nearest method returns
    a raster; with two or more, both methods return a raster. *)
Theorem generar_raster_amenaza_resultado (puntos_gdf : GeoDataFrame)
  (celdas : list celda) :
  (tiene_FS_min puntos_gdf = false \/
   contar_validos (map FS_min (filas puntos_gdf)) = 0%nat ->
     forall method,
       generar_raster_amenaza distancia puntos_gdf celdas method = OK None) /\
  (tiene_FS_min puntos_gdf = true ->
   contar_validos (map FS_min (filas puntos_gdf)) = 1%nat ->
     generar_raster_amenaza distancia puntos_gdf celdas idw
     = Raise AxisError) /\
  (tiene_FS_min puntos_gdf = true ->
   (2 <= contar_validos (map FS_min (filas puntos_gdf)))%nat ->
     exists r,
       generar_raster_amenaza distancia puntos_gdf celdas idw = OK (Some r)) /\
  (tiene_FS_min puntos_gdf = true ->
   (1 <= contar_validos (map FS_min (filas puntos_gdf)))%nat ->
     exists r,
       generar_raster_amenaza distancia puntos_gdf celdas nearest
       = OK (Some r)).
Proof.
  assert (Hsel : forall n,
            contar_validos (map FS_min (filas puntos_gdf)) = n ->
            length (seleccionar
                      (map (fun v => negb (isnan v))
                         (map FS_min (filas puntos_gdf)))
                      (map geom (filas puntos_gdf))) = n /\
            length (seleccionar
                      (map (fun v => negb (isnan v))
                         (map FS_min (filas puntos_gdf)))
                      (map FS_min (filas puntos_gdf))) = n).
  { intros n Hn. rewrite contar_validos_filas in Hn.
    rewrite !map_map.
    rewrite (seleccionar_length (fun f => negb (isnan (FS_min f))) geom),
      (seleccionar_length (fun f => negb (isnan (FS_min f))) FS_min).
    split; exact Hn. }
  assert (Hex : forall n,
            contar_validos (map FS_min (filas puntos_gdf)) = S n ->
            negb (existsb (fun b => b)
                    (map (fun v => negb (isnan v))
                       (map FS_min (filas puntos_gdf)))) = false).
  { intros n Hn.
    destruct (existsb _ _) eqn:E; [reflexivity|].
    apply sin_validos_contar in E. congruence. }
  split; [|split; [|split]].
  - intros [H|H] method; unfold generar_raster_amenaza.
    + rewrite H. reflexivity.
    + destruct (negb (tiene_FS_min puntos_gdf)); [reflexivity|].
      apply sin_validos_contar in H. rewrite H. reflexivity.
  - intros Hf H1. unfold generar_raster_amenaza.
    rewrite Hf, (Hex 0%nat H1). cbn [negb].
    destruct (Hsel 1%nat H1) as [Lc Lv].
    destruct (seleccionar _ (map geom _)) as [|p [|p' ps]];
      try discriminate Lc.
    destruct (seleccionar _ (map FS_min _)) as [|v [|v' vs]];
      try discriminate Lv.
    reflexivity.
  - intros Hf H2. unfold generar_raster_amenaza.
    destruct (contar_validos (map FS_min (filas puntos_gdf))) as [|n] eqn:En;
      [lia|].
    rewrite Hf, (Hex n eq_refl). cbn [negb].
    destruct (Hsel (S n) eq_refl) as [Lc Lv].
    destruct (interpolar_idw_existe
                (seleccionar
                   (map (fun v => negb (isnan v))
                      (map FS_min (filas puntos_gdf)))
                   (map geom (filas puntos_gdf)))
                (map xy celdas)
                (seleccionar
                   (map (fun v => negb (isnan v))
                      (map FS_min (filas puntos_gdf)))
                   (map FS_min (filas puntos_gdf))) 2) as [zs E];
      [lia | congruence |].
    rewrite E. cbn [bind]. apply generar_raster_tras_interpolar.
  - intros Hf H1. unfold generar_raster_amenaza.
    destruct (contar_validos (map FS_min (filas puntos_gdf))) as [|n] eqn:En;
      [lia|].
    rewrite Hf, (Hex n eq_refl). cbn [negb].
    destruct (Hsel (S n) eq_refl) as [Lc Lv].
    destruct (griddata_nearest_existe
                (seleccionar
                   (map (fun v => negb (isnan v))
                      (map FS_min (filas puntos_gdf)))
                   (map geom (filas puntos_gdf)))
                (seleccionar
                   (map (fun v => negb (isnan v))
                      (map FS_min (filas puntos_gdf)))
                   (map FS_min (filas puntos_gdf)))
                (map xy celdas)) as [zs [E _]].
    + intros H0. rewrite H0 in Lc. discriminate Lc.
    + congruence.
    + rewrite E. cbn [bind]. apply generar_raster_tras_interpolar.
Qed.

End Raster_resultados.

Lemma generar_raster_amenaza_resultado_witness :
  generar_raster_amenaza distancia_en_x (tabla_de_fs [Fin (13 # 10); NaN])
    [{| xy := (0, 0); dentro := true |}] idw = Raise AxisError /\
  exists r,
    generar_raster_amenaza distancia_en_x (tabla_de_fs [Fin (13 # 10); NaN])
      [{| xy := (0, 0); dentro := true |}] nearest = OK (Some r).
Proof.
  pose proof (generar_raster_amenaza_resultado distancia_en_x
                (tabla_de_fs [Fin (13 # 10); NaN])
                [{| xy := (0, 0); dentro := true |}]) as [_ [H1 [_ H3]]].
  split.
  - apply H1; reflexivity.
  - apply H3; [reflexivity | cbn; lia].
Defined.

Lemma clase_raster_no_cero (z : fval) :
  clase_raster z <> 0%Z <-> z = PInf \/ exists q, z = Fin q /\ 0 < q.
Proof.
  destruct z as [| |q|]; cbn [clase_raster].
  - split; [intros H; contradiction H; reflexivity|].
    intros [H|[q [H _]]]; discriminate H.
  - split; [intros H; contradiction H; reflexivity|].
    intros [H|[q [H _]]]; discriminate H.
  - split.
    + intros H. right. exists q. split; [reflexivity|].
      revert H. q_casos; intros H; try lra. contradiction H. reflexivity.
    + intros [H|[q' [H Hq]]]; [discriminate H|]. injection H as <-.
      q_casos; try discriminate. exfalso. lra.
  - split; [intros _; left; reflexivity | discriminate].
Qed.

Lemma clase_raster_rango (z : fval) : (0 <= clase_raster z <= 5)%Z.
Proof. destruct z as [| |q|]; cbn; try lia. q_casos; lia. Qed.


Section Raster_celdas.

Variable distancia : punto -> punto -> Q.

(** X12: in every raster that [generar_raster_amenaza] returns, both grids
    have one entry per cell; a cell outside the area is NaN and class 0;
    every class is between 0 and 5; and a cell's class is not 0 exactly
    when its continuous value is a positive number or plus infinity, which
    only happens for a cell inside the area. *)
Theorem generar_raster_amenaza_por_celda (puntos_gdf : GeoDataFrame)
  (celdas : list celda) (method : metodo) (r : raster) :
  generar_raster_amenaza distancia puntos_gdf celdas method = OK (Some r) ->
  length (zi_continuo r) = length celdas /\
  length (zi_clasificado r) = length celdas /\
  forall (i : nat) (c : celda),
    nth_error celdas i = Some c ->
    exists (z : fval) (k : Z),
      nth_error (zi_continuo r) i = Some z /\
      nth_error (zi_clasificado r) i = Some k /\
      (0 <= k <= 5)%Z /\
      (dentro c = false -> z = NaN /\ k = 0%Z) /\
      (k <> 0%Z <-> z = PInf \/ exists q, z = Fin q /\ 0 < q) /\
      (k <> 0%Z -> dentro c = true).
Proof.
  intros H.
  destruct (generar_raster_amenaza_celdas _ _ _ _ _ H) as [Hc [L Hout]].
  split; [exact L|]. split; [rewrite Hc, length_map; exact L|].
  intros i c Hi.
  assert (Hlt : (i < length (zi_continuo r))%nat).
  { rewrite L. apply nth_error_Some. congruence. }
  destruct (nth_error (zi_continuo r) i) as [z|] eqn:Ez;
    [|apply nth_error_None in Ez; lia].
  exists z, (clase_raster z). split; [reflexivity|].
  split; [rewrite Hc, nth_error_map, Ez; reflexivity|].
  split; [apply clase_raster_rango|].
  assert (Hfuera : dentro c = false -> z = NaN).
  { intros Hd. pose proof (Hout i c Hi Hd) as Hn. congruence. }
  split; [|split].
  - intros Hd. rewrite (Hfuera Hd). split; reflexivity.
  - apply clase_raster_no_cero.
  - intros Hk. destruct (dentro c) eqn:Ed; [reflexivity|].
    rewrite (Hfuera eq_refl) in Hk. contradiction Hk. reflexivity.
Qed.

(** X13: with the nearest method, the continuous value of every cell inside
    the area is the FS_min of one of the input points, a valid one, so the
    cell's class is the raster class of that point's FS_min. *)
Theorem generar_raster_amenaza_nearest (puntos_gdf : GeoDataFrame)
  (celdas : list celda) (r : raster) (i : nat) (c : celda) :
  generar_raster_amenaza distancia puntos_gdf celdas nearest = OK (Some r) ->
  nth_error celdas i = Some c ->
  dentro c = true ->
  exists f : fila,
    In f (filas puntos_gdf) /\ isnan (FS_min f) = false /\
    nth_error (zi_continuo r) i = Some (FS_min f) /\
    nth_error (zi_clasificado r) i = Some (clase_raster (FS_min f)).
Proof.
  intros H Hi Hd.
  destruct (generar_raster_amenaza_celdas _ _ _ _ _ H) as [Hc [L _]].
  unfold generar_raster_amenaza in H.
  destruct (negb (tiene_FS_min puntos_gdf)); [discriminate|].
  destruct (negb (existsb _ _)); [discriminate|].
  match type of H with
  | bind ?interp _ = _ => destruct interp as [zi|] eqn:Ez; [|discriminate]
  end.
  cbn [bind] in H.
  pose proof (griddata_nearest_length _ _ _ _ _ Ez) as Lz.
  rewrite length_map in Lz.
  match type of H with
  | bind ?cl _ = _ => destruct cl as [zc|]; [|discriminate]
  end.
  cbn [bind] in H. injection H as <-. cbn [zi_continuo zi_clasificado] in *.
  rewrite Hc, nth_error_map.
  rewrite (enmascarar_nth celdas zi i c Lz Hi), Hd.
  assert (Hlt : (i < length zi)%nat).
  { rewrite Lz. apply nth_error_Some. congruence. }
  destruct (nth_error zi i) as [z|] eqn:Ei;
    [|apply nth_error_None in Ei; lia].
  assert (Hz : In z (map FS_min
                       (filter (fun f => negb (isnan (FS_min f)))
                          (filas puntos_gdf)))).
  { apply nth_error_In in Ei. unfold griddata_nearest in Ez.
    destruct (seleccionar _ (map geom _)); [discriminate|].
    apply mapM_OK_Forall2 in Ez.
    destruct (Forall2_In_r _ _ _ _ Ez Ei) as [q [_ Hq]].
    apply indexar_In in Hq. rewrite map_map in Hq.
    rewrite (seleccionar_map (fun f => negb (isnan (FS_min f))) FS_min) in Hq.
    exact Hq. }
  apply in_map_iff in Hz. destruct Hz as [f [<- Hf]].
  apply filter_In in Hf. destruct Hf as [Hf Hn].
  exists f. split; [exact Hf|]. split; [apply negb_true_iff, Hn|].
  split; reflexivity.
Qed.

End Raster_celdas.

Lemma generar_raster_amenaza_por_celda_witness :
  length (zi_continuo {| zi_continuo := [Fin (13 # 10); NaN];
                         zi_clasificado := [3%Z; 0%Z] |}) = 2%nat.
Proof.
  apply (generar_raster_amenaza_por_celda distancia_en_x
           (tabla_de_fs [Fin (13 # 10); NaN])
           [{| xy := (0, 0); dentro := true |};
            {| xy := (1, 0); dentro := false |}] nearest).
  reflexivity.
Defined.

Lemma generar_raster_amenaza_nearest_witness :
  exists f : fila,
    In f (filas (tabla_de_fs [Fin (13 # 10); NaN])) /\
    isnan (FS_min f) = false /\
    nth_error [Fin (13 # 10); NaN] 0 = Some (FS_min f) /\
    nth_error [3%Z; 0%Z] 0 = Some (clase_raster (FS_min f)).
Proof.
  apply (generar_raster_amenaza_nearest distancia_en_x
           (tabla_de_fs [Fin (13 # 10); NaN])
           [{| xy := (0, 0); dentro := true |};
            {| xy := (1, 0); dentro := false |}]
           {| zi_continuo := [Fin (13 # 10); NaN];
              zi_clasificado := [3%Z; 0%Z] |} 0
           {| xy := (0, 0); dentro := true |}); reflexivity.
Defined.



Section Raster_uniforme.

Variable distancia : punto -> punto -> Q.


End Raster_uniforme.


(** ** Coordinate systems *)




Section Proyeccion_props.

Variable CRS : Type.
Variable is_geographic : CRS -> bool.
Variable from_epsg : Z -> res CRS.
Variable crs_eqb : CRS -> CRS -> bool.
Variable geometrias : Type.
Variable transformar : CRS -> CRS -> geometrias -> geometrias.
Variable centroid : geometrias -> punto.

(** X16: [ensure_projected] never succeeds on a corridor without a
    coordinate system, since such a layer cannot be transformed.  When it
    succeeds both layers have a system, the points' system is the
    corridor's (or equal to it), the numbers of geometries are kept, a
    corridor that was already projected is returned as it is, and a
    geographic corridor ends in the UTM system of its centroid, or of the
    points' centroid when the corridor is empty. *)
Theorem ensure_projected_resultado (corredor_gdf puntos_gdf : capa CRS geometrias) :
  (crs corredor_gdf = None ->
     exists e, ensure_projected is_geographic from_epsg crs_eqb transformar
                 centroid corredor_gdf puntos_gdf = Raise e) /\
  (forall c' p' : capa CRS geometrias,
     ensure_projected is_geographic from_epsg crs_eqb transformar centroid
       corredor_gdf puntos_gdf = OK (c', p') ->
     exists a b : CRS,
       crs c' = Some a /\ crs p' = Some b /\
       (b = a \/ crs_eqb b a = true) /\
       len c' = len corredor_gdf /\ len p' = len puntos_gdf /\
       (forall a0, crs corredor_gdf = Some a0 -> is_geographic a0 = false ->
                   c' = corredor_gdf) /\
       (forall a0, crs corredor_gdf = Some a0 -> is_geographic a0 = true ->
                   from_epsg
                     (_utm_epsg
                        (centroid (geoms (if (len corredor_gdf =? 0)%nat
                                          then puntos_gdf
                                          else corredor_gdf))))
                   = OK a)).
Proof.
  split.
  - intros Hc. unfold ensure_projected, to_crs. rewrite Hc.
    destruct (from_epsg _) as [d|e]; cbn [bind]; eexists; reflexivity.
  - intros c' p' H. unfold ensure_projected, to_crs in H.
    destruct (crs corredor_gdf) as [a0|] eqn:Ec.
    + destruct (is_geographic a0) eqn:Eg.
      * destruct (from_epsg _) as [d|] eqn:Ef; [|discriminate H].
        cbn [bind crs] in H.
        destruct (crs puntos_gdf) as [b0|] eqn:Ep; cbn [crs_distinto] in H;
          [|discriminate H].
        destruct (negb (crs_eqb b0 d)) eqn:En; cbn [bind] in H;
          inversion H; subst; cbn [crs len].
        -- exists d, d. repeat split; try (left; reflexivity);
             intros; congruence.
        -- exists d, b0. apply negb_false_iff in En.
           repeat split; try assumption; try (right; assumption);
             intros; congruence.
      * cbn [bind] in H. rewrite Ec in H.
        destruct (crs puntos_gdf) as [b0|] eqn:Ep; cbn [crs_distinto] in H;
          [|discriminate H].
        destruct (negb (crs_eqb b0 a0)) eqn:En; cbn [bind] in H;
          inversion H; subst; cbn [crs len].
        -- exists a0, a0. repeat split; try assumption;
             try (left; reflexivity); intros; congruence.
        -- exists a0, b0. apply negb_false_iff in En.
           repeat split; try assumption; try (right; assumption);
             intros; congruence.
    + destruct (from_epsg _) as [d|]; discriminate H.
Qed.

End Proyeccion_props.

Lemma ensure_projected_resultado_witness :
  exists a b : EjemploCRS.CRS,
    Some 32618%Z = Some a /\ Some 32618%Z = Some b /\
    (b = a \/ EjemploCRS.crs_eqb b a = true).
Proof.
  destruct (proj2 (ensure_projected_resultado EjemploCRS.CRS
                     EjemploCRS.is_geographic EjemploCRS.from_epsg
                     EjemploCRS.crs_eqb EjemploCRS.geometrias
                     EjemploCRS.transformar EjemploCRS.centroid
                     EjemploCRS.corredor EjemploCRS.puntos)
              {| crs := Some 32618%Z;
                 geoms := [(- (7568 # 100), 432 # 100)]; len := 1 |}
              {| crs := Some 32618%Z;
                 geoms := [(- (7569 # 100), 433 # 100)]; len := 1 |}
              eq_refl) as [a [b [H1 [H2 [H3 _]]]]].
  exists a, b. repeat split; assumption.
Defined.

(** ** Raster loading and drawing *)

Ltac qeq_casos :=
  repeat match goal with
         | |- context [Qeq_bool ?a ?b] =>
             let E := fresh "E" in
             destruct (Qeq_bool a b) eqn:E;
             [apply Qeq_bool_iff in E | apply Qeq_bool_neq in E]
         end.

Lemma insertar_unico_In x y l :
  In y (insertar_unico x l) -> y = x \/ In y l.
Proof.
  induction l as [|z l IH]; cbn.
  - intros [H|[]]. left. symmetry. exact H.
  - destruct (feqb x z); [intros H; right; exact H|].
    destruct (np_lt x z).
    + intros [H|H]; [left; symmetry; exact H | right; exact H].
    + intros [H|H]; [right; left; exact H|].
      destruct (IH H) as [H1|H1]; [left; exact H1 | right; right; exact H1].
Qed.

Lemma insertar_unico_viejo x y l : In y l -> In y (insertar_unico x l).
Proof.
  induction l as [|z l IH]; cbn; [intros []|].
  destruct (feqb x z); [intros H; exact H|].
  destruct (np_lt x z).
  - intros H. right. exact H.
  - intros [H|H]; [left; exact H | right; apply IH; exact H].
Qed.

Lemma insertar_unico_nuevo x l :
  In x (insertar_unico x l) \/
  exists y, In y (insertar_unico x l) /\ feqb x y = true.
Proof.
  induction l as [|z l IH]; cbn.
  - left. left. reflexivity.
  - destruct (feqb x z) eqn:E.
    + right. exists z. split; [left; reflexivity | exact E].
    + destruct (np_lt x z).
      * left. left. reflexivity.
      * destruct IH as [H|[y [H1 H2]]].
        -- left. right. exact H.
        -- right. exists y. split; [right; exact H1 | exact H2].
Qed.

Lemma unique_In y l : In y (unique l) -> In y l.
Proof.
  induction l as [|x l IH]; cbn; [intros []|].
  intros H. apply insertar_unico_In in H. destruct H as [H|H].
  - left. symmetry. exact H.
  - right. apply IH. exact H.
Qed.

Lemma unique_representa x l :
  In x l -> In x (unique l) \/ exists y, In y (unique l) /\ feqb x y = true.
Proof.
  induction l as [|z l IH]; cbn; [intros []|].
  intros [H|H].
  - subst z. apply insertar_unico_nuevo.
  - destruct (IH H) as [H1|[y [H1 H2]]].
    + left. apply insertar_unico_viejo. exact H1.
    + right. exists y. split; [apply insertar_unico_viejo; exact H1 | exact H2].
Qed.

Lemma forallb_unique (p : fval -> bool) (l : list fval) :
  (forall x y, feqb x y = true -> p x = p y) ->
  forallb p (unique l) = forallb p l.
Proof.
  intros Hp. apply Bool.eq_iff_eq_true. rewrite !forallb_forall. split.
  - intros H x Hx. destruct (unique_representa x l Hx) as [H1|[y [H1 H2]]].
    + apply H. exact H1.
    + rewrite (Hp x y H2). apply H. exact H1.
  - intros H x Hx. apply H. apply unique_In. exact Hx.
Qed.

Lemma forallb_seleccionar {A} (p m : A -> bool) (l : list A) :
  forallb p (seleccionar (map m l) l)
  = forallb (fun v => negb (m v) || p v) l.
Proof.
  induction l as [|x l IH]; cbn; [reflexivity|].
  destruct (m x); cbn; rewrite IH; reflexivity.
Qed.

Lemma int_de_entero (q : Q) :
  q == inject_Z (Qfloor q) -> int_de q = Qfloor q.
Proof.
  intros H. unfold int_de. unfold Qeq in H. cbn in H.
  rewrite Z.mul_1_r in H. rewrite H. apply Z.quot_mul. discriminate.
Qed.

Lemma existsb_Zeqb (z : Z) (s : list Z) : existsb (Z.eqb z) s = true -> In z s.
Proof.
  rewrite existsb_exists. intros [y [H1 H2]]. apply Z.eqb_eq in H2.
  subst y. exact H1.
Qed.

Lemma en_conjunto_In (v : fval) (s : list Z) :
  en_conjunto v s = true <->
  exists q z, v = Fin q /\ In z s /\ q == inject_Z z.
Proof.
  split.
  - destruct v as [| |q|]; cbn; try discriminate.
    rewrite existsb_exists. intros [z [H1 H2]].
    apply Qeq_bool_iff in H2. exists q, z. auto.
  - intros [q [z [-> [H1 H2]]]]. cbn. rewrite existsb_exists.
    exists z. split; [exact H1 | apply Qeq_bool_iff; exact H2].
Qed.

Lemma entero_en_conjunto_sobra (v : fval) (s : list Z) :
  entero_en_conjunto v s = true -> en_conjunto v s = true.
Proof.
  destruct v as [| |q|]; cbn; try discriminate.
  intros H. apply andb_true_iff in H. destruct H as [H1 H2].
  apply Qeq_bool_iff in H1. rewrite (int_de_entero q H1) in H2.
  apply existsb_Zeqb in H2. rewrite existsb_exists.
  exists (Qfloor q). split; [exact H2 | apply Qeq_bool_iff; exact H1].
Qed.

Lemma prueba_discreta (v : fval) (s : list Z) :
  en_conjunto v s || entero_en_conjunto v s = en_conjunto v s.
Proof.
  destruct (en_conjunto v s) eqn:E; [reflexivity|]. cbn.
  destruct (entero_en_conjunto v s) eqn:E2; [|reflexivity].
  apply entero_en_conjunto_sobra in E2. congruence.
Qed.

Lemma en_conjunto_feqb (x y : fval) (s : list Z) :
  feqb x y = true -> en_conjunto x s = en_conjunto y s.
Proof.
  destruct x as [| |a|], y as [| |b|]; cbn; try discriminate;
    try reflexivity.
  intros H. apply Qeq_bool_iff in H.
  induction s as [|z s IH]; cbn; [reflexivity|].
  rewrite IH. f_equal. apply Bool.eq_iff_eq_true.
  rewrite !Qeq_bool_iff. rewrite H. reflexivity.
Qed.

Lemma In_valores (z : Z) :
  In z VALORES_DISCRETOS_VALIDOS <-> (0 <= z <= 5)%Z.
Proof. unfold VALORES_DISCRETOS_VALIDOS. cbn. lia. Qed.

Lemma celda_discreta (v : fval) :
  negb (fneb v (Fin 0) && negb (isnan v))
  || en_conjunto v VALORES_DISCRETOS_VALIDOS = true
  <-> valor_discreto v.
Proof.
  unfold valor_discreto. split.
  - intros H. apply orb_true_iff in H. destruct H as [H|H].
    + destruct v as [| |q|]; try discriminate.
      * left. reflexivity.
      * right. unfold fneb, feqb, isnan in H.
        destruct (Qeq_bool q 0) eqn:E; [|discriminate].
        apply Qeq_bool_iff in E. clear H. rename E into H.
        exists q, 0%Z. split; [reflexivity|]. split; [lia | exact H].
    + apply en_conjunto_In in H. destruct H as [q [z [-> [H1 H2]]]].
      right. exists q, z. apply In_valores in H1. auto.
  - intros [->|[q [z [-> [H1 H2]]]]]; [reflexivity|].
    apply orb_true_iff. right. apply en_conjunto_In.
    exists q, z. split; [reflexivity|]. split; [|exact H2].
    apply In_valores. exact H1.
Qed.

Lemma detect_raster_type_Forall (data : list fval) :
  detect_raster_type data = true <-> Forall valor_discreto data.
Proof.
  unfold detect_raster_type.
  set (m := fun x => fneb x (Fin 0) && negb (isnan x)).
  set (p := fun v => en_conjunto v VALORES_DISCRETOS_VALIDOS
                     || entero_en_conjunto v VALORES_DISCRETOS_VALIDOS).
  assert (E : (if (length (seleccionar (map m data) data) =? 0)%nat
               then true
               else forallb p (unique (seleccionar (map m data) data)))
              = forallb p (unique (seleccionar (map m data) data))).
  { destruct (seleccionar (map m data) data); reflexivity. }
  rewrite E. rewrite forallb_unique.
  2:{ intros x y H. unfold p. rewrite !prueba_discreta.
      apply en_conjunto_feqb. exact H. }
  rewrite forallb_seleccionar, forallb_forall, Forall_forall.
  split; intros H x Hx.
  - apply celda_discreta. specialize (H x Hx). unfold p in H.
    rewrite prueba_discreta in H. exact H.
  - unfold p. rewrite prueba_discreta. apply celda_discreta. apply H. exact Hx.
Qed.


(** The array Classifier under the default scheme, cell by cell. *)
Lemma clasificar_fs_array_celdas (l : list fval) :
  clasificar_fs_array UMBRALES_AMENAZA l = OK (map clase_de_celda l).
Proof.
  rewrite clasificar_fs_array_forma; [|discriminate|discriminate].
  f_equal. apply map_ext. intros x.
  destruct x as [| |q|]; try reflexivity.
  unfold fneb, feqb, isnan, clase_de_celda.
  rewrite andb_true_r.
  destruct (Qeq_bool q 0) eqn:E0; [reflexivity|]. cbn [negb].
  unfold digitize_mono, searchsorted, clase_de.
  change (monotonicity (bins UMBRALES_AMENAZA)) with 1%Z.
  cbn -[Qle_bool].
  q_casos; cbn; try reflexivity; exfalso; lra.
Qed.

Lemma clase_de_celda_rango (x : fval) : (0 <= clase_de_celda x <= 5)%Z.
Proof.
  destruct x as [| |q|]; cbn; try lia.
  destruct (Qeq_bool q 0); [lia|]. pose proof (clase_de_rango q). lia.
Qed.


(** X17: a raster is taken as discrete exactly when every cell is NaN or one
    of the whole numbers 0 to 5; one other value, an infinity included,
    makes the whole raster continuous. *)
Theorem detect_raster_type_discreto (data : list fval) :
  (detect_raster_type data = true <-> Forall valor_discreto data) /\
  (forall v, In v data -> v = PInf \/ v = NInf ->
             detect_raster_type data = false).
Proof.
  split; [apply detect_raster_type_Forall|].
  intros v Hv Hinf. destruct (detect_raster_type data) eqn:E; [|reflexivity].
  apply detect_raster_type_Forall in E. rewrite Forall_forall in E.
  specialize (E v Hv). destruct E as [E|[q [z [E _]]]];
    destruct Hinf; subst; discriminate.
Qed.

Section Carga.

Variable a_float32 : fval -> fval.



End Carga.

Lemma asignar_escalar_map {A B} (m : A -> bool) (f : A -> B) (c : B)
  (l : list A) :
  asignar_escalar (map m l) (map f l) c
  = map (fun v => if m v then c else f v) l.
Proof.
  induction l as [|x l IH]; cbn; [reflexivity|]. rewrite IH. reflexivity.
Qed.

Lemma combine_map_map {A B C D} (m : A -> B) (g : A -> C) (h : B * C -> D)
  (l : list A) :
  map h (combine (map m l) (map g l)) = map (fun v => h (m v, g v)) l.
Proof.
  induction l as [|x l IH]; cbn; [reflexivity|]. rewrite IH. reflexivity.
Qed.

(** The colour loop, pixel by pixel: the last entry of the colour table
    whose class equals the cell value wins. *)
Lemma aplicar_colormap (data : list fval) (colormap : list (Z * rgba))
  (f : fval -> rgba) :
  fold_left
    (fun (img : list rgba) (cc : Z * rgba) =>
       asignar_escalar (map (fun v => feqb v (de_clase (fst cc))) data) img
                       (px_uint8 (snd cc)))
    colormap (map f data)
  = map (fun v =>
           fold_left
             (fun (px : rgba) (cc : Z * rgba) =>
                if feqb v (de_clase (fst cc)) then px_uint8 (snd cc) else px)
             colormap (f v))
        data.
Proof.
  revert f. induction colormap as [|cc cm IH]; intros f; cbn [fold_left].
  - reflexivity.
  - rewrite asignar_escalar_map. rewrite IH. reflexivity.
Qed.

Lemma pixel_por_defecto (v : fval) :
  (fun mp : bool * rgba => if fst mp then sin_alpha (snd mp) else snd mp)
    (feqb v (de_clase 0),
     fold_left
       (fun (px : rgba) (cc : Z * rgba) =>
          if feqb v (de_clase (fst cc)) then px_uint8 (snd cc) else px)
       COLORES_RGBA (0, 0, 0, 0)%Z)
  = color_de v.
Proof.
  destruct v as [| |q|]; try reflexivity.
  unfold COLORES_RGBA, de_clase, feqb, color_de. cbn -[Qeq_bool].
  change (inject_Z 0) with 0. change (inject_Z 1) with 1.
  change (inject_Z 2) with 2. change (inject_Z 3) with 3.
  change (inject_Z 4) with 4. change (inject_Z 5) with 5.
  qeq_casos; cbn; try reflexivity; exfalso; lra.
Qed.

Lemma color_de_alpha (v : fval) :
  (color_de v = (0, 0, 0, 0)%Z \/ alpha (color_de v) = 180%Z) /\
  (alpha (color_de v) = 180%Z <->
   exists (q : Q) (k : Z), v = Fin q /\ (1 <= k <= 5)%Z /\ q == inject_Z k).
Proof.
  destruct v as [| |q|].
  1,2,4: split; [left; reflexivity|]; split;
         [cbn; discriminate | intros [q [k [H _]]]; discriminate].
  unfold color_de. split.
  - qeq_casos; cbn; auto.
  - split.
    + intros H. exists q. revert H.
      qeq_casos; cbn; intros H; try discriminate;
        [exists 1%Z | exists 2%Z | exists 3%Z | exists 4%Z | exists 5%Z];
        (split; [reflexivity|]; split; [lia | assumption]).
    + intros [q' [k [E [Hk Hq]]]]. injection E as <-.
      assert (Hc : (k = 1 \/ k = 2 \/ k = 3 \/ k = 4 \/ k = 5)%Z) by lia.
      qeq_casos; cbn; try reflexivity; exfalso;
        destruct Hc as [Hc|[Hc|[Hc|[Hc|Hc]]]]; subst k;
        unfold Qeq in *; cbn in *; lia.
Qed.

Section Dibujo.

Variable a_float32 : fval -> fval.

Lemma raster_to_png_base64_forma (data : list fval) (is_discrete : bool) :
  raster_to_png_base64 a_float32 data COLORES_RGBA 0 is_discrete
  = OK (map (fun v =>
               color_de (if is_discrete then v
                         else de_clase (clase_de_celda (a_float32 v))))
            data).
Proof.
  unfold raster_to_png_base64.
  assert (E : forall d : list fval,
             map (fun mp : bool * rgba =>
                    if fst mp then sin_alpha (snd mp) else snd mp)
                 (combine
                    (map (fun v => feqb v (de_clase 0)) d)
                    (fold_left
                       (fun (img : list rgba) (cc : Z * rgba) =>
                          asignar_escalar
                            (map (fun v => feqb v (de_clase (fst cc))) d) img
                            (px_uint8 (snd cc)))
                       COLORES_RGBA (map (fun _ => (0, 0, 0, 0)%Z) d)))
             = map color_de d).
  { intros d. rewrite aplicar_colormap.
    rewrite (combine_map_map (fun v => feqb v (de_clase 0))).
    apply map_ext. intros v. apply pixel_por_defecto. }
  destruct is_discrete; cbn [negb bind].
  - rewrite E. reflexivity.
  - rewrite clasificar_fs_array_celdas. cbn [bind]. rewrite E.
    rewrite !map_map. reflexivity.
Qed.

Lemma raster_to_folium_overlay_forma (data : list fval) (auto_detect : bool) :
  raster_to_folium_overlay a_float32 data COLORES_RGBA auto_detect
  = OK (map (fun v =>
               color_de (if auto_detect && negb (detect_raster_type data)
                         then de_clase (clase_de_celda (a_float32 v))
                         else v))
            data,
        detect_raster_type data,
        auto_detect && negb (detect_raster_type data)).
Proof.
  unfold raster_to_folium_overlay. rewrite raster_to_png_base64_forma.
  cbn [bind]. destruct auto_detect, (detect_raster_type data); reflexivity.
Qed.

(** X19: the overlay never raises and has one pixel per cell.  With the
    default colours a cell is drawn with the colour of its class when its
    value (or, for a continuous raster under automatic detection, the class
    the array Classifier gives it) is one of the whole numbers 1 to 5, with
    alpha 180, and as the fully transparent black pixel in every other case:
    nodata, NaN, and every non-integer value of a continuous raster drawn
    without automatic detection. *)
Theorem raster_to_folium_overlay_pixeles (data : list fval)
  (auto_detect : bool) :
  exists img : list rgba,
    raster_to_folium_overlay a_float32 data COLORES_RGBA auto_detect
    = OK (img, detect_raster_type data,
          auto_detect && negb (detect_raster_type data)) /\
    length img = length data /\
    forall (i : nat) (v : fval),
      nth_error data i = Some v ->
      exists px : rgba,
        nth_error img i = Some px /\
        (px = (0, 0, 0, 0)%Z \/ alpha px = 180%Z) /\
        (auto_detect && negb (detect_raster_type data) = false ->
         px = color_de v /\
         (alpha px = 180%Z <->
          exists (q : Q) (k : Z),
            v = Fin q /\ (1 <= k <= 5)%Z /\ q == inject_Z k)) /\
        (auto_detect && negb (detect_raster_type data) = true ->
         px = color_de (de_clase (clase_de_celda (a_float32 v))) /\
         (alpha px = 180%Z <-> clase_de_celda (a_float32 v) <> 0%Z)).
Proof.
  rewrite raster_to_folium_overlay_forma.
  eexists. split; [reflexivity|]. split; [apply length_map|].
  intros i v Hi. rewrite nth_error_map, Hi. cbn [option_map].
  eexists. split; [reflexivity|].
  split; [apply color_de_alpha|].
  split; intros E; rewrite E; (split; [reflexivity|]).
  - apply color_de_alpha.
  - rewrite (proj2 (color_de_alpha _)).
    pose proof (clase_de_celda_rango (a_float32 v)) as Hr.
    split.
    + intros [q [k [Eq [Hk Hq]]]]. unfold de_clase in Eq.
      injection Eq as <-. intros H0. rewrite H0 in Hq.
      unfold Qeq in Hq. cbn in Hq. lia.
    + intros Hn. exists (inject_Z (clase_de_celda (a_float32 v))),
        (clase_de_celda (a_float32 v)).
      split; [reflexivity|]. split; [lia | reflexivity].
Qed.

End Dibujo.

Section Raster_exportado.

Variable distancia : punto -> punto -> Q.
Variable a_float32 : fval -> fval.


End Raster_exportado.


(** ** The grid of the raster *)


















(** ** The point table of the dashboard *)




Lemma map_snd_combine {A B} (l : list A) (l' : list B) :
  length l = length l' -> map snd (combine l l') = l'.
Proof.
  revert l'. induction l as [|x l IH]; intros [|y l'] H; cbn in *;
    try discriminate; [reflexivity|].
  rewrite IH by lia. reflexivity.
Qed.

Lemma map_fst_combine {A B} (l : list A) (l' : list B) :
  length l = length l' -> map fst (combine l l') = l.
Proof.
  revert l'. induction l as [|x l IH]; intros [|y l'] H; cbn in *;
    try discriminate; [reflexivity|].
  rewrite IH by lia. reflexivity.
Qed.

Lemma arange_length (desde : Z) (n : nat) : length (arange desde n) = n.
Proof. unfold arange. rewrite length_map, length_seq. reflexivity. Qed.

Lemma arange_nth (desde : Z) (n i : nat) (v : Z) :
  nth_error (arange desde n) i = Some v -> v = (desde + Z.of_nat i)%Z.
Proof.
  unfold arange. rewrite nth_error_map, nth_error_seq.
  destruct (i <? n)%nat; cbn; [|discriminate].
  intros H. injection H as <-. reflexivity.
Qed.

Lemma con_ID_columna (g : GeoDataFrame) (columna : list Z) :
  length (filas g) = length columna ->
  map ID (filas (con_ID g columna)) = columna.
Proof.
  intros H. unfold con_ID, tabla. cbn [filas]. rewrite map_map.
  cbn [fila_con_ID ID].
  rewrite <- (map_snd_combine (filas g) columna H) at 2.
  reflexivity.
Qed.

Lemma fila_con_ID_igual (f : fila) : fila_con_ID f (ID f) = f.
Proof. destruct f. reflexivity. Qed.

Lemma con_ID_misma (g : GeoDataFrame) :
  filas (con_ID g (map ID (filas g))) = filas g.
Proof.
  unfold con_ID, tabla. cbn [filas].
  induction (filas g) as [|f l IH]; cbn; [reflexivity|].
  rewrite IH. f_equal. apply fila_con_ID_igual.
Qed.

Section Preparacion.

Variable centroides : GeoDataFrame -> list punto.


End Preparacion.

(** X24: [ensure_id_column] returns a table that has the column ID; a table
    that has it already keeps its rows, a table without any identifier
    column is numbered from 0, and the function is idempotent. *)
Theorem ensure_id_column_resultado (otra otra' : option (list Z))
  (gdf : GeoDataFrame) :
  tiene_ID (ensure_id_column otra gdf) = true /\
  (tiene_ID gdf = true -> ensure_id_column otra gdf = gdf) /\
  (tiene_ID gdf = false ->
   forall (i : nat) (f : fila),
     nth_error (filas (ensure_id_column None gdf)) i = Some f ->
     ID f = Z.of_nat i) /\
  ensure_id_column otra' (ensure_id_column otra gdf)
  = ensure_id_column otra gdf.
Proof.
  assert (Hcon : forall g : GeoDataFrame,
             tiene_ID g = true -> con_ID g (map ID (filas g)) = g).
  { intros g Hg. pose proof (con_ID_misma g) as Hf.
    unfold con_ID, tabla in *. cbn [filas] in Hf. rewrite Hf.
    destruct g. cbn in *. subst. reflexivity. }
  assert (Ht : tiene_ID (ensure_id_column otra gdf) = true).
  { unfold ensure_id_column.
    destruct (tiene_ID gdf); [|destruct otra]; reflexivity. }
  split; [exact Ht|]. split; [|split].
  - intros H. unfold ensure_id_column. rewrite H. apply Hcon. exact H.
  - intros H i f Hi. unfold ensure_id_column in Hi. rewrite H in Hi.
    assert (Hn : nth_error
                   (map ID (filas (con_ID gdf
                                     (arange 0 (length (filas gdf)))))) i
                 = Some (ID f)).
    { rewrite nth_error_map, Hi. reflexivity. }
    rewrite con_ID_columna in Hn by (rewrite arange_length; reflexivity).
    apply arange_nth in Hn. lia.
  - unfold ensure_id_column at 1. rewrite Ht. apply Hcon. exact Ht.
Qed.

(** ** The regions on disk *)

Lemma insertar_cadena_In (x y : string) (l : list string) :
  In y (insertar_cadena x l) <-> y = x \/ In y l.
Proof.
  induction l as [|z l IH]; cbn.
  - split; [intros [H|[]]; left; symmetry; exact H
           | intros [H|[]]; left; symmetry; exact H].
  - destruct (String.leb x z); cbn.
    + split; [intros [H|H]; [left; symmetry; exact H | right; exact H]
             | intros [H|H]; [left; symmetry; exact H | right; exact H]].
    + rewrite IH. split.
      * intros [H|[H|H]]; auto.
      * intros [H|[H|H]]; auto.
Qed.

Lemma sorted_In (y : string) (l : list string) : In y (sorted l) <-> In y l.
Proof.
  induction l as [|x l IH]; cbn; [reflexivity|].
  rewrite insertar_cadena_In, IH. split; intros [H|H]; auto.
Qed.

Lemma insertar_cadena_ascendente (x : string) (l : list string) :
  ascendente l = true -> ascendente (insertar_cadena x l) = true.
Proof.
  induction l as [|y l IH]; [reflexivity|].
  intros H. cbn [insertar_cadena].
  destruct (String.leb x y) eqn:E.
  - cbn [ascendente]. rewrite E. exact H.
  - assert (Eyx : String.leb y x = true).
    { destruct (String.leb_total x y) as [H1|H1]; [congruence | exact H1]. }
    destruct l as [|z l].
    + cbn. rewrite Eyx. reflexivity.
    + cbn [ascendente] in H. apply andb_true_iff in H. destruct H as [H1 H2].
      specialize (IH H2). cbn [insertar_cadena] in *.
      destruct (String.leb x z) eqn:E2.
      * cbn [ascendente] in *. rewrite Eyx. exact IH.
      * cbn [ascendente] in *. rewrite H1. exact IH.
Qed.

Lemma sorted_ascendente (l : list string) : ascendente (sorted l) = true.
Proof.
  induction l as [|x l IH]; [reflexivity|].
  cbn. apply insertar_cadena_ascendente. exact IH.
Qed.

Section Regiones_en_disco.

Variable DATA_DIR_exists : bool.
Variable iterdir : list string.
Variable is_dir : string -> bool.
Variable exists_ : string -> string -> bool.

(** X25: the regions listed are exactly the entries of the data directory
    that are directories and hold a points file, in ascending order; every
    listed region has its points file among the files of the region, so the
    page never finds it missing; the files of a region always have the four
    keys, and a path is given only for a file that exists. *)
Theorem get_regiones_disponibles_resultado :
  (forall r : string,
     In r (get_regiones_disponibles DATA_DIR_exists iterdir is_dir exists_)
     <-> DATA_DIR_exists = true /\ In r iterdir /\ is_dir r = true /\
         exists_ r "puntos.gpkg" = true) /\
  ascendente (get_regiones_disponibles DATA_DIR_exists iterdir is_dir exists_)
  = true /\
  (forall r : string,
     In r (get_regiones_disponibles DATA_DIR_exists iterdir is_dir exists_) ->
     buscar "puntos" (get_archivos_region exists_ r)
     = Some (Some (r, "puntos.gpkg"%string))) /\
  (forall region : string,
     map fst (get_archivos_region exists_ region)
     = ["raster"; "corredor"; "puntos"; "voronoi"]%string) /\
  (forall (region k : string) (p : string * string),
     buscar k (get_archivos_region exists_ region) = Some (Some p) ->
     fst p = region /\ exists_ region (snd p) = true /\
     buscar k ARCHIVOS_REGION = Some (snd p)).
Proof.
  assert (Hin : forall r : string,
             In r (get_regiones_disponibles DATA_DIR_exists iterdir is_dir
                                            exists_)
             <-> DATA_DIR_exists = true /\ In r iterdir /\
                 is_dir r = true /\ exists_ r "puntos.gpkg" = true).
  { intros r. unfold get_regiones_disponibles.
    destruct DATA_DIR_exists; cbn [negb app].
    - rewrite sorted_In, filter_In, andb_true_iff. tauto.
    - split; [intros [] | intros [H _]; discriminate]. }
  split; [exact Hin|]. split; [|split; [|split]].
  - unfold get_regiones_disponibles.
    destruct DATA_DIR_exists; cbn [negb app];
      [apply sorted_ascendente | reflexivity].
  - intros r Hr. apply Hin in Hr. destruct Hr as [_ [_ [_ He]]].
    unfold get_archivos_region, ARCHIVOS_REGION. cbn. rewrite He.
    reflexivity.
  - intros region. reflexivity.
  - intros region k p.
    unfold get_archivos_region, ARCHIVOS_REGION.
    cbn [map fst snd buscar].
    repeat match goal with
           | |- context [String.eqb k ?s] => destruct (String.eqb k s)
           end;
      try discriminate;
      match goal with
      | |- context [exists_ region ?fl] =>
          destruct (exists_ region fl) eqn:E; [|discriminate]
      end;
      intros H; injection H as <-; cbn; auto.
Qed.

End Regiones_en_disco.
